(** * Binance_OFI: order-book logger and offline reconstruction

    A shallow embedding of the two programs of the repository,

    - [reconstruct_orderbook.py]: the in-memory [OrderBook] (two dicts
      keyed by [Decimal] price) and [replay_diffs], which rebuilds a book
      from a persisted log;
    - [biance_orderbook_logger.py]: [BinanceOrderBookTracker], which aligns
      a REST snapshot with the depth-diff stream and persists what it
      accepts,

    followed by the properties that the specification states about them
    and by further properties read off the code.

    Modelling decisions, all of them visible in the definitions below:

    - A Python [Decimal] built from a finite numeral is modelled by its
      exact rational value, a canonical fraction [Qc].  The constructor
      [Decimal(str)] is exact whatever the context precision is, and the
      only operations the programs use on decimals ([==], [>], [hash],
      ordering as a sort key) depend on the numeric value alone, so two
      spellings of one number ("1.0", "1.00") are one key, as in Python.
      Non-finite decimals (NaN, Infinity) are outside the model.
    - A dict keyed by [Decimal] is a [gmap Decimal Decimal]: keys are
      unique and the programs never observe insertion order (the only
      iteration is through [sorted]).
    - Python integers are [Z].
    - The tracker object is an explicit record threaded through a small
      outcome monad; the REST endpoint is an oracle indexed by the number
      of requests already made. *)

From Stdlib Require Import ZArith QArith Qcanon.
From stdpp Require Import base numbers list sorting gmap fin_maps.

(** ** Decimals *)

Abbreviation Decimal := Qc.

(** The value of the numeral with integer coefficient [coeff] and decimal
    exponent [exp], e.g. [Dec 5 (-1)] for "0.5" and [Dec 101 0] for "101". *)
Definition Dec (coeff exp : Z) : Decimal :=
  Q2Qc (inject_Z coeff * (10 # 1) ^ exp)%Q.

(** ** Wire and log data shared by the two programs *)

(** A level as it appears in a payload: [[price, quantity]]. *)
Abbreviation PriceLevel := (Decimal * Decimal)%type.

(** REST depth snapshot: [{"lastUpdateId": .., "bids": .., "asks": ..}]. *)
Record Snapshot : Type := mkSnapshot {
  lastUpdateId : Z;
  snap_bids : list PriceLevel;
  snap_asks : list PriceLevel
}.

(** Stream [depthUpdate] event: [U] first and [u] final update id, [b] and
    [a] the changed bid and ask levels. *)
Record DiffEvent : Type := mkDiff {
  U : Z;
  u : Z;
  b : list PriceLevel;
  a : list PriceLevel
}.

(** Sample payloads used to exercise the statements below. *)
Definition snapshot_150 : Snapshot :=
  mkSnapshot 150 [(Dec 100 0, Dec 1 0); (Dec 99 0, Dec 2 0)] [(Dec 101 0, Dec 2 0)].
Definition diff_151_155 : DiffEvent :=
  mkDiff 151 155 [(Dec 99 0, 0%Qc); (Dec 102 0, Dec 3 0)] [(Dec 103 0, Dec 1 0)].
Definition diff_152_155 : DiffEvent :=
  mkDiff 152 155 [(Dec 102 0, Dec 3 0)] [].
Definition diff_156_160 : DiffEvent :=
  mkDiff 156 160 [(Dec 100 0, Dec 5 (-1))] [(Dec 101 0, 0%Qc)].
Definition diff_102_105 : DiffEvent :=
  mkDiff 102 105 [] [(Dec 101 0, Dec 4 0)].

(** Decides a closed decidable statement by evaluation. *)
Ltac by_computation := apply (bool_decide_unpack _); vm_compute; exact I.

(** ** reconstruct_orderbook.py *)

Module Reconstruct.

Record OrderBook : Type := mkOrderBook {
  bids : gmap Decimal Decimal;
  asks : gmap Decimal Decimal
}.

(** [OrderBook.__init__] *)
Definition new_OrderBook : OrderBook := mkOrderBook ∅ ∅.

(** [OrderBook._levels_to_dict]: only levels with [qty > 0] are kept; a
    later level for the same price overwrites an earlier one. *)
Definition _levels_to_dict (levels : list PriceLevel) : gmap Decimal Decimal :=
  foldl (λ result level,
           let '(price, qty) := level in
           if decide (0 < qty)%Qc then <[price := qty]> result else result)
        ∅ levels.

(** [OrderBook._update_level]: [pop(price, None)] when [qty == 0],
    assignment otherwise. *)
Definition _update_level (book_side : gmap Decimal Decimal)
    (price qty : Decimal) : gmap Decimal Decimal :=
  if decide (qty = 0%Qc) then delete price book_side
  else <[price := qty]> book_side.

Definition update_levels (book_side : gmap Decimal Decimal)
    (changes : list PriceLevel) : gmap Decimal Decimal :=
  foldl (λ side level, _update_level side level.1 level.2) book_side changes.

(** [OrderBook.load_snapshot]: both sides are replaced wholesale. *)
Definition load_snapshot (self : OrderBook) (snapshot : Snapshot) : OrderBook :=
  {| bids := _levels_to_dict (snap_bids snapshot);
     asks := _levels_to_dict (snap_asks snapshot) |}.

(** [OrderBook.apply_diff]: the bid changes in order, then the ask
    changes in order. *)
Definition apply_diff (self : OrderBook) (diff : DiffEvent) : OrderBook :=
  {| bids := update_levels (bids self) (b diff);
     asks := update_levels (asks self) (a diff) |}.

(** Sort keys of [top_levels]: [key=lambda x: x[0]], descending when
    [reverse=True]. *)
Definition price_desc : relation PriceLevel := λ x y, (y.1 ≤ x.1)%Qc.
Definition price_asc : relation PriceLevel := λ x y, (x.1 ≤ y.1)%Qc.

#[global] Instance price_desc_dec : RelDecision price_desc.
Proof. intros x y. unfold price_desc. apply _. Defined.
#[global] Instance price_asc_dec : RelDecision price_asc.
Proof. intros x y. unfold price_asc. apply _. Defined.

(** The slice [l[:depth]] for a Python integer [depth]: the first
    [depth] elements when [depth >= 0], all but the last [-depth] ones
    otherwise. *)
Definition slice_to {A} (depth : Z) (l : list A) : list A :=
  if decide (0 ≤ depth)%Z then take (Z.to_nat depth) l
  else take (length l - Z.to_nat (- depth)) l.

(** [OrderBook.top_levels].  [sorted] is rendered by a merge sort; as the
    prices of a side are pairwise distinct, the sorted list does not
    depend on the sorting algorithm. *)
Definition top_levels (self : OrderBook) (depth : Z)
    : list PriceLevel * list PriceLevel :=
  let bids_sorted := slice_to depth (merge_sort price_desc (map_to_list (bids self))) in
  let asks_sorted := slice_to depth (merge_sort price_asc (map_to_list (asks self))) in
  (bids_sorted, asks_sorted).

(** One line of the JSONL log as [replay_diffs] sees it. *)
Inductive Entry : Type :=
| EntrySnapshot (data : Snapshot)   (* {"type": "snapshot", "data": ..} *)
| EntryDiff (data : DiffEvent)      (* {"type": "diff", "data": ..} *)
| EntryOther.                       (* any other "type": ignored *)

Inductive Line : Type :=
| Blank                             (* [not line.strip()] *)
| Json (entry : Entry)
| Malformed.                        (* [json.loads] raises on this line *)

Inductive ReplayError : Type :=
| JSONDecodeError
| EmptyReplayError.  (* RuntimeError("No diff events were applied. ...") *)

(** The [for line in f] loop of [replay_diffs], with its two locals.  It
    ends at end of input or at the [break] and returns the locals. *)
Fixpoint replay_loop (event_limit : Z) (lines : list Line)
    (order_book : OrderBook) (events_applied : Z)
    : ReplayError + OrderBook * Z :=
  match lines with
  | [] => inr (order_book, events_applied)
  | Blank :: rest => replay_loop event_limit rest order_book events_applied
  | Malformed :: _ => inl JSONDecodeError
  | Json (EntrySnapshot data) :: rest =>
      replay_loop event_limit rest (load_snapshot order_book data) events_applied
  | Json (EntryDiff data) :: rest =>
      let order_book := apply_diff order_book data in
      let events_applied := (events_applied + 1)%Z in
      if negb (event_limit =? 0)%Z && (events_applied >=? event_limit)%Z
      then inr (order_book, events_applied)
      else replay_loop event_limit rest order_book events_applied
  | Json EntryOther :: rest => replay_loop event_limit rest order_book events_applied
  end.

(** [replay_diffs(file_path, depth, event_limit)]; [depth] is unused by
    the function body. *)
Definition replay_diffs (file : list Line) (depth : Z) (event_limit : Z)
    : ReplayError + OrderBook :=
  match replay_loop event_limit file new_OrderBook 0 with
  | inl err => inl err
  | inr (order_book, events_applied) =>
      if (events_applied =? 0)%Z then inl EmptyReplayError
      else inr order_book
  end.

(** *** Vocabulary of the properties *)

(** A side that stores strictly positive quantities only. *)
Definition positive_side (side : gmap Decimal Decimal) : Prop :=
  map_Forall (λ _ qty, (0 < qty)%Qc) side.

Definition positive_book (self : OrderBook) : Prop :=
  positive_side (bids self) ∧ positive_side (asks self).

(** Changes as the data model types them: quantities are never negative. *)
Definition nonneg_changes (changes : list PriceLevel) : Prop :=
  Forall (λ level, (0 ≤ level.2)%Qc) changes.

(** What a run of changes decides for [price]: [None] when no change
    names it, otherwise the entry the last such change leaves ([None]
    inside for a removal). *)
Fixpoint last_change (changes : list PriceLevel) (price : Decimal)
    : option (option Decimal) :=
  match changes with
  | [] => None
  | level :: rest =>
      match last_change rest price with
      | Some r => Some r
      | None =>
          if decide (level.1 = price)
          then Some (if decide (level.2 = 0%Qc) then None else Some level.2)
          else None
      end
  end.

(** [out] is the list of the [n] best levels of [side], best first, where
    [better p p'] reads "price [p] comes before price [p']": it has [n]
    levels (all of them when the side has fewer), each is a level of the
    side, prices strictly improve towards the head, and every level of
    the side left out is worse than every level listed. *)
Definition top_of (better : relation Decimal) (side : gmap Decimal Decimal)
    (n : nat) (out : list PriceLevel) : Prop :=
  length out = n `min` size side
  ∧ (∀ price qty, (price, qty) ∈ out → side !! price = Some qty)
  ∧ StronglySorted (λ x y, better x.1 y.1) out
  ∧ (∀ price qty, side !! price = Some qty → (price, qty) ∉ out →
       ∀ level, level ∈ out → better level.1 price).

(** Comparing levels by price under an order [le'] on prices, and the
    strict part of such an order. *)
Definition by_price (le' : relation Decimal) : relation PriceLevel :=
  λ x y, le' x.1 y.1.
Definition before (le' : relation Decimal) : relation Decimal :=
  λ p p', le' p p' ∧ p ≠ p'.

(** The bids [{100: 1, 99: 2, 101: 0.5}]. *)
Definition example_bids : gmap Decimal Decimal :=
  <[Dec 101 0 := Dec 5 (-1)]> (<[Dec 99 0 := Dec 2 0]> (<[Dec 100 0 := Dec 1 0]> ∅)).

(** Diff records of a log, and the part of a log that ends with its
    [k]-th diff record (the whole log when it has fewer). *)
Definition is_diff (line : Line) : bool :=
  match line with Json (EntryDiff _) => true | _ => false end.

Fixpoint count_diffs (lines : list Line) : nat :=
  match lines with
  | [] => 0
  | line :: rest => (if is_diff line then 1 else 0) + count_diffs rest
  end.

Fixpoint upto_diffs (k : nat) (lines : list Line) {struct lines} : list Line :=
  match k, lines with
  | O, _ => []
  | _, [] => []
  | S k', line :: rest => line :: upto_diffs (if is_diff line then k' else k) rest
  end.

(** The book after the records of [lines] have been applied in order. *)
Definition apply_line (order_book : OrderBook) (line : Line) : OrderBook :=
  match line with
  | Json (EntrySnapshot data) => load_snapshot order_book data
  | Json (EntryDiff data) => apply_diff order_book data
  | _ => order_book
  end.

Definition book_after (lines : list Line) (order_book : OrderBook) : OrderBook :=
  foldl apply_line order_book lines.

(** The log [snapshot; diff1; diff2]. *)
Definition example_log : list Line :=
  [Json (EntrySnapshot snapshot_150); Json (EntryDiff diff_151_155);
   Json (EntryDiff diff_156_160)].

End Reconstruct.

(** ** biance_orderbook_logger.py *)

Module Tracker.

(** [time.time()]: a float, kept as the rational it denotes. *)
Abbreviation Timestamp := Qc.

(** What [output_file.write(json.dumps(..) + '\n')] appends. *)
Inductive PersistedRecord : Type :=
| SnapshotRecord (timestamp : Timestamp) (data : Snapshot)
| DiffRecord (data : DiffEvent).

Record OutputFile : Type := mkFile {
  closed : bool;
  written : list PersistedRecord
}.

Inductive Connection : Type := ConnOpen | ConnClosed.
Inductive ThreadState : Type := Alive | Joined.

(** The attributes of a [BinanceOrderBookTracker].  [requests_made] is
    not an attribute: it counts the calls to [requests.get] so far, and
    indexes the REST oracle. *)
Record BinanceOrderBookTracker : Type := mkTracker {
  ws : option Connection;
  ws_thread : option ThreadState;
  snapshot_last_update_id : option Z;
  last_final_update_id : option Z;
  diff_buffer : list DiffEvent;
  snapshot_ready : bool;
  is_running : bool;
  output_file : OutputFile;
  requests_made : nat
}.

Inductive Exception : Type :=
| TypeError     (* ordering comparison of an int with None *)
| ValueError.   (* I/O operation on closed file *)

(** What one [requests.get] + [raise_for_status] + [json()] yields: a
    depth snapshot (with the clock reading taken when it is logged), or
    a transport or HTTP error, all of which are [RequestException]s. *)
Inductive FetchResult : Type :=
| Fetched (snapshot : Snapshot) (now : Timestamp)
| RequestException.

(** How a method call ends: it returns, it raises, or it hands control
    to [self._resync()] and returns when that call does (both call sites
    of [_resync] are followed by a bare [return], so nothing of the
    calling method runs afterwards).  Each case carries the tracker as
    the method left it. *)
Inductive Outcome (A : Type) : Type :=
| Returns (x : A) (self : BinanceOrderBookTracker)
| Raises (e : Exception) (self : BinanceOrderBookTracker)
| Resyncs (self : BinanceOrderBookTracker).
Arguments Returns {A} x self.
Arguments Raises {A} e self.
Arguments Resyncs {A} self.

Definition Method (A : Type) : Type := BinanceOrderBookTracker → Outcome A.

#[global] Instance Method_ret : MRet Method := λ A x self, Returns x self.
#[global] Instance Method_bind : MBind Method := λ A B f m self,
  match m self with
  | Returns x self' => f x self'
  | Raises e self' => Raises e self'
  | Resyncs self' => Resyncs self'
  end.
#[global] Instance Method_throw : MThrow Exception Method := λ A e self, Raises e self.

Definition get_self : Method BinanceOrderBookTracker := λ self, Returns self self.
Definition call_resync : Method () := λ self, Resyncs self.

(** Attribute assignments. *)
Definition set_ws (v : option Connection) (s : BinanceOrderBookTracker) :=
  mkTracker v (ws_thread s) (snapshot_last_update_id s) (last_final_update_id s)
            (diff_buffer s) (snapshot_ready s) (is_running s) (output_file s) (requests_made s).
Definition set_ws_thread (v : option ThreadState) (s : BinanceOrderBookTracker) :=
  mkTracker (ws s) v (snapshot_last_update_id s) (last_final_update_id s)
            (diff_buffer s) (snapshot_ready s) (is_running s) (output_file s) (requests_made s).
Definition set_snapshot_last_update_id (v : option Z) (s : BinanceOrderBookTracker) :=
  mkTracker (ws s) (ws_thread s) v (last_final_update_id s)
            (diff_buffer s) (snapshot_ready s) (is_running s) (output_file s) (requests_made s).
Definition set_last_final_update_id (v : option Z) (s : BinanceOrderBookTracker) :=
  mkTracker (ws s) (ws_thread s) (snapshot_last_update_id s) v
            (diff_buffer s) (snapshot_ready s) (is_running s) (output_file s) (requests_made s).
Definition set_is_running (v : bool) (s : BinanceOrderBookTracker) :=
  mkTracker (ws s) (ws_thread s) (snapshot_last_update_id s) (last_final_update_id s)
            (diff_buffer s) (snapshot_ready s) v (output_file s) (requests_made s).
Definition set_output_file (v : OutputFile) (s : BinanceOrderBookTracker) :=
  mkTracker (ws s) (ws_thread s) (snapshot_last_update_id s) (last_final_update_id s)
            (diff_buffer s) (snapshot_ready s) (is_running s) v (requests_made s).
Definition set_requests_made (v : nat) (s : BinanceOrderBookTracker) :=
  mkTracker (ws s) (ws_thread s) (snapshot_last_update_id s) (last_final_update_id s)
            (diff_buffer s) (snapshot_ready s) (is_running s) (output_file s) v.

Definition assign (f : BinanceOrderBookTracker → BinanceOrderBookTracker) : Method () :=
  λ self, Returns () (f self).

(** [BinanceOrderBookTracker.__init__]: nothing connected, nothing
    fetched, the output file freshly opened for writing. *)
Definition new_tracker : BinanceOrderBookTracker :=
  {| ws := None; ws_thread := None;
     snapshot_last_update_id := None; last_final_update_id := None;
     diff_buffer := []; snapshot_ready := false; is_running := true;
     output_file := mkFile false []; requests_made := 0 |}.

(** [self.output_file.write(..)]: raises on a closed file. *)
Definition output_file_write (record : PersistedRecord) : Method () :=
  self ← get_self;
  let f := output_file self in
  if closed f then mthrow ValueError
  else assign (set_output_file (mkFile false (written f ++ [record]))).

(** [self.output_file.close()]: closing twice is allowed. *)
Definition output_file_close : Method () :=
  self ← get_self;
  assign (set_output_file (mkFile true (written (output_file self)))).

(** [requests.get(..)] against the REST source: the answer to the
    [requests_made]-th request. *)
Definition requests_get (rest : nat → FetchResult) : Method FetchResult :=
  self ← get_self;
  assign (set_requests_made (S (requests_made self)));;
  mret (rest (requests_made self)).

(** [BinanceOrderBookTracker.stop] *)
Definition stop : Method () :=
  assign (set_is_running false);;
  self ← get_self;
  (match ws self with
   | Some _ => assign (set_ws (Some ConnClosed))          (* self.ws.close() *)
   | None => mret ()
   end);;
  (match ws_thread self with
   | Some _ => assign (set_ws_thread (Some Joined))       (* self.ws_thread.join() *)
   | None => mret ()
   end);;
  output_file_close.

(** [BinanceOrderBookTracker._get_initial_snapshot]: only a
    [RequestException] is caught; the handler calls [stop]. *)
Definition _get_initial_snapshot (rest : nat → FetchResult) : Method () :=
  response ← requests_get rest;
  match response with
  | Fetched snapshot now =>
      assign (set_snapshot_last_update_id (Some (lastUpdateId snapshot)));;
      output_file_write (SnapshotRecord now snapshot)
  | RequestException => stop
  end.

(** [BinanceOrderBookTracker._process_diff] *)
Definition _process_diff (data : DiffEvent) : Method () :=
  let U_first := U data in
  let u_final := u data in
  self ← get_self;
  match snapshot_last_update_id self with
  | None => mthrow TypeError
  | Some snapshot_id =>
      if (u_final <=? snapshot_id)%Z then mret ()
      else
        let save : Method () :=
          output_file_write (DiffRecord data);;
          assign (set_last_final_update_id (Some u_final)) in
        match last_final_update_id self with
        | None =>
            if negb ((U_first <=? snapshot_id + 1)%Z && (u_final >=? snapshot_id + 1)%Z)
            then call_resync
            else save
        | Some last =>
            if negb (U_first =? last + 1)%Z then call_resync else save
        end
  end.

(** The guard of the loops in [start] and [_run_websocket]. *)
Definition session_alive (self : BinanceOrderBookTracker) : bool := is_running self.

(** The tracker after [e] was accepted: [e] appended to the log, and the
    high-water mark moved to [e]'s final update id. *)
Definition accepted (data : DiffEvent) (self : BinanceOrderBookTracker)
    : BinanceOrderBookTracker :=
  set_last_final_update_id (Some (u data))
    (set_output_file (mkFile false (written (output_file self) ++ [DiffRecord data])) self).

(** Unfolds one method call down to matches on the tracker's fields. *)
Ltac run_method :=
  cbv [_process_diff _get_initial_snapshot stop requests_get
       output_file_write output_file_close assign call_resync get_self
       mbind mret mthrow Method_bind Method_ret Method_throw].

(** A tracker in the middle of [start_processes]: socket thread started
    and connected, snapshot not fetched yet. *)
Definition connected_tracker : BinanceOrderBookTracker :=
  set_ws_thread (Some Alive) (set_ws (Some ConnOpen) new_tracker).

(** The tracker that has just fetched and logged [snapshot_150]. *)
Definition tracker_at_150 : BinanceOrderBookTracker :=
  {| ws := Some ConnOpen; ws_thread := Some Alive;
     snapshot_last_update_id := Some 150%Z; last_final_update_id := None;
     diff_buffer := []; snapshot_ready := true; is_running := true;
     output_file := mkFile false [SnapshotRecord 0%Qc snapshot_150];
     requests_made := 1 |}.

(** A tracker whose snapshot had id 90 and whose last applied diff ended
    at update 100. *)
Definition tracker_marked_100 : BinanceOrderBookTracker :=
  set_last_final_update_id (Some 100%Z)
    (set_snapshot_last_update_id (Some 90%Z) tracker_at_150).

End Tracker.

(** ** Further vocabulary for the order book and the replay *)

Module BookVocabulary.
Import Reconstruct.

(** What a change with quantity [qty] leaves at its price. *)
Definition entry_of (qty : Decimal) : option Decimal :=
  if decide (qty = 0%Qc) then None else Some qty.

(** The levels that [_levels_to_dict] keeps. *)
Definition positive_level (level : PriceLevel) : Prop := (0 < level.2)%Qc.

#[global] Instance positive_level_dec (level : PriceLevel) :
  Decision (positive_level level).
Proof. unfold positive_level. apply _. Defined.

(** Lines that make [replay_diffs] do something: records of type
    snapshot or diff, and lines that do not parse. *)
Definition significant (line : Line) : bool :=
  match line with
  | Blank | Json EntryOther => false
  | _ => true
  end.

(** A log whose diff records carry non-negative quantities only. *)
Definition nonneg_line (line : Line) : Prop :=
  match line with
  | Json (EntryDiff data) => nonneg_changes (b data) ∧ nonneg_changes (a data)
  | _ => True
  end.

(** The book loaded from [snapshot_150]: bids [{100: 1, 99: 2}], asks
    [{101: 2}]. *)
Definition book_150 : OrderBook := load_snapshot new_OrderBook snapshot_150.

(** [diff_151_155] with its bid changes in the other order. *)
Definition diff_151_155_swapped : DiffEvent :=
  mkDiff 151 155 [(Dec 102 0, Dec 3 0); (Dec 99 0, 0%Qc)] [(Dec 103 0, Dec 1 0)].

(** A snapshot that lists a price twice, the second time with quantity 0,
    and the event made of its strictly positive levels. *)
Definition snapshot_zero_level : Snapshot :=
  mkSnapshot 150 [(Dec 100 0, Dec 1 0); (Dec 100 0, 0%Qc)] [(Dec 101 0, Dec 2 0)].
Definition diff_of_snapshot_zero_level : DiffEvent :=
  mkDiff 0 0 [(Dec 100 0, Dec 1 0)] [(Dec 101 0, Dec 2 0)].

(** [example_log] followed by a line that does not parse. *)
Definition log_with_bad_tail : list Line := example_log ++ [Malformed].

(** One event with the changes of [diff_151_155] followed by those of
    [diff_156_160]. *)
Definition diff_151_160 : DiffEvent :=
  mkDiff 151 160 (b diff_151_155 ++ b diff_156_160) (a diff_151_155 ++ a diff_156_160).

End BookVocabulary.

(** ** More of biance_orderbook_logger.py *)

Module TrackerMore.
Import Tracker.

Definition set_diff_buffer (v : list DiffEvent) (s : BinanceOrderBookTracker) :=
  mkTracker (ws s) (ws_thread s) (snapshot_last_update_id s) (last_final_update_id s)
            v (snapshot_ready s) (is_running s) (output_file s) (requests_made s).
Definition set_snapshot_ready (v : bool) (s : BinanceOrderBookTracker) :=
  mkTracker (ws s) (ws_thread s) (snapshot_last_update_id s) (last_final_update_id s)
            (diff_buffer s) v (is_running s) (output_file s) (requests_made s).


(** A decoded socket frame, as [_on_message] tells frames apart. *)
Inductive Message : Type :=
| DepthUpdate (data : DiffEvent)   (* data.get("e") == "depthUpdate" *)
| SubscriptionResult               (* "result" in data and data.get("id") == 1 *)
| OtherMessage.

(** [BinanceOrderBookTracker._on_message] *)
Definition _on_message (message : Message) : Method () :=
  match message with
  | DepthUpdate data =>
      self ← get_self;
      if negb (snapshot_ready self)
      then assign (set_diff_buffer (diff_buffer self ++ [data]))
      else _process_diff data
  | SubscriptionResult => mret ()
  | OtherMessage => mret ()
  end.

(** The socket thread hands the frames it receives to [_on_message] one
    after the other. *)
Fixpoint deliver (messages : list Message) : Method () :=
  match messages with
  | [] => mret ()
  | message :: rest => _on_message message;; deliver rest
  end.

(** [BinanceOrderBookTracker._resync], given the method it ends with. *)
Definition _resync (start_processes : Method ()) : Method () :=
  self ← get_self;
  (match ws self with
   | Some _ => assign (set_ws (Some ConnClosed))          (* self.ws.close() *)
   | None => mret ()
   end);;
  assign (set_snapshot_ready false);;
  assign (set_last_final_update_id None);;
  assign (set_diff_buffer []);;
  start_processes.

(** Runs a method and, where it hands over to [self._resync()], runs
    [resync] in its place: the caller returns when [resync] does. *)
Definition with_resync (resync : Method ()) (method : Method ()) : Method () :=
  λ self,
    match method self with
    | Resyncs self' => resync self'
    | outcome => outcome
    end.

(** What is left to run of the [while] loop of [_process_buffer] after
    one event was processed. *)
Definition and_then (outcome : Outcome ())
    (next : BinanceOrderBookTracker → option (Outcome ())) : option (Outcome ()) :=
  match outcome with
  | Returns _ self' => next self'
  | Raises e self' => Some (Raises e self')
  | Resyncs self' => Some (Resyncs self')
  end.

(** [BinanceOrderBookTracker._process_buffer]: the loop
    [while self.diff_buffer: diff = popleft(); self._process_diff(diff)],
    run for at most [fuel] tests of its condition ([None] when that is
    not enough). *)
Fixpoint _process_buffer (resync : Method ()) (fuel : nat)
    (self : BinanceOrderBookTracker) : option (Outcome ()) :=
  match fuel with
  | O => None
  | S fuel' =>
      match diff_buffer self with
      | [] => Some (Returns () self)
      | diff :: rest =>
          and_then (with_resync resync (_process_diff diff) (set_diff_buffer rest self))
                   (_process_buffer resync fuel')
      end
  end.

(** *** Vocabulary: a gap-free run of diffs *)

(** Each diff starts right after the one before it. *)
Definition chained (diffs : list DiffEvent) : Prop :=
  ∀ i d d', diffs !! i = Some d → diffs !! S i = Some d' → U d' = (u d + 1)%Z.

(** The first diff covers update [L + 1]. *)
Definition straddles (L : Z) (diffs : list DiffEvent) : Prop :=
  ∀ d, head diffs = Some d → (U d ≤ L + 1 ∧ L + 1 ≤ u d)%Z.

Definition gap_free (L : Z) (diffs : list DiffEvent) : Prop :=
  straddles L diffs ∧ chained diffs ∧ Forall (λ d, (L < u d)%Z) diffs.

(** The log ends with a snapshot record followed by a gap-free run of
    diffs, the tracker's snapshot id is that snapshot's, and its
    high-water mark is the final update id of the last of these diffs. *)
Definition synced (self : BinanceOrderBookTracker) : Prop :=
  ∃ before timestamp snapshot diffs,
    written (output_file self)
    = before ++ SnapshotRecord timestamp snapshot :: (DiffRecord <$> diffs)
    ∧ snapshot_last_update_id self = Some (lastUpdateId snapshot)
    ∧ gap_free (lastUpdateId snapshot) diffs
    ∧ last_final_update_id self = u <$> last diffs.

(** The tracker after the diffs [diffs] were accepted one after the
    other. *)
Definition accepted_all (diffs : list DiffEvent) (self : BinanceOrderBookTracker)
    : BinanceOrderBookTracker :=
  foldl (λ s d, accepted d s) self diffs.

(** The test an event newer than the snapshot has to pass: the
    straddling test for the first event, the chaining test after it. *)
Definition acceptable (L : Z) (mark : option Z) (e : DiffEvent) : Prop :=
  match mark with
  | None => (U e ≤ L + 1 ∧ L + 1 ≤ u e)%Z
  | Some last => U e = (last + 1)%Z
  end.

#[global] Instance acceptable_dec L mark e : Decision (acceptable L mark e).
Proof. unfold acceptable. destruct mark; apply _. Defined.

(** The depth updates among some frames, in arrival order. *)
Definition depth_updates (messages : list Message) : list DiffEvent :=
  omap (λ message, match message with DepthUpdate data => Some data | _ => None end)
       messages.

(** The tracker as [_resync] leaves it when it calls [start_processes]. *)
Definition reset_for_resync (self : BinanceOrderBookTracker) : BinanceOrderBookTracker :=
  set_diff_buffer []
    (set_last_final_update_id None
       (set_snapshot_ready false
          (match ws self with
           | Some _ => set_ws (Some ConnClosed) self
           | None => self
           end))).

(** Events that pass the tests one after the other, starting from the
    high-water mark [mark]. *)
Fixpoint follows (L : Z) (mark : option Z) (events : list DiffEvent) : Prop :=
  match events with
  | [] => True
  | e :: rest => (L < u e)%Z ∧ acceptable L mark e ∧ follows L (Some (u e)) rest
  end.


(** A REST source that always answers with [snapshot_150]. *)
Definition rest_150 : nat → FetchResult := λ _, Fetched snapshot_150 0%Qc.

(** Frames as the socket may deliver them. *)
Definition example_frames : list Message :=
  [DepthUpdate diff_151_155; SubscriptionResult; DepthUpdate diff_156_160;
   OtherMessage].

(** A stand-in for [start_processes] that returns at once. *)
Definition returns_at_once : Method () := mret ().

(** [tracker_at_150] with a buffer whose head skips update 151. *)
Definition tracker_with_gap : BinanceOrderBookTracker :=
  set_diff_buffer [diff_152_155; diff_156_160] tracker_at_150.

End TrackerMore.

(** * Properties of the order book *)

Module BookProps.
Import Reconstruct.

Lemma update_level_lookup (m : gmap Decimal Decimal) (p q p' : Decimal) :
  _update_level m p q !! p' =
    if decide (p = p') then (if decide (q = 0%Qc) then None else Some q)
    else m !! p'.
Proof.
  unfold _update_level.
  destruct (decide (q = 0%Qc)); [rewrite lookup_delete | rewrite lookup_insert];
    by destruct (decide (p = p')).
Qed.

Lemma update_levels_cons m level changes :
  update_levels m (level :: changes)
  = update_levels (_update_level m level.1 level.2) changes.
Proof. reflexivity. Qed.

Lemma update_levels_app m pre post :
  update_levels m (pre ++ post) = update_levels (update_levels m pre) post.
Proof. unfold update_levels. apply foldl_app. Qed.

Lemma update_levels_lookup changes : ∀ m p,
  update_levels m changes !! p = default (m !! p) (last_change changes p).
Proof.
  induction changes as [|[p' q'] changes IH]; intros m p; [done|].
  rewrite update_levels_cons, IH. cbn [last_change fst snd].
  destruct (last_change changes p) as [r|]; [done|]. cbn.
  rewrite update_level_lookup.
  by destruct (decide (p' = p)).
Qed.

Lemma update_levels_idem m changes :
  update_levels (update_levels m changes) changes = update_levels m changes.
Proof.
  apply map_eq. intros p. rewrite !update_levels_lookup.
  by destruct (last_change changes p).
Qed.

Lemma update_levels_positive changes : ∀ m,
  positive_side m → nonneg_changes changes → positive_side (update_levels m changes).
Proof.
  induction changes as [|[p q] changes IH]; intros m Hm Hch; [done|].
  apply Forall_cons in Hch as [Hq Hch]. cbn in Hq.
  rewrite update_levels_cons. apply IH; [|done]. cbn.
  unfold _update_level. destruct (decide (q = 0%Qc)) as [->|Hne].
  - by apply map_Forall_delete.
  - apply map_Forall_insert_2; [|done].
    apply Qcle_lt_or_eq in Hq as [Hq|Hq]; [done|]. by subst q.
Qed.

Lemma levels_to_dict_positive_from levels : ∀ m,
  positive_side m →
  positive_side
    (foldl (λ result level,
              let '(price, qty) := level in
              if decide (0 < qty)%Qc then <[price := qty]> result else result)
           m levels).
Proof.
  induction levels as [|[p q] levels IH]; intros m Hm; [done|].
  cbn. apply IH. destruct (decide (0 < q)%Qc); [|done].
  by apply map_Forall_insert_2.
Qed.

Lemma levels_to_dict_positive levels : positive_side (_levels_to_dict levels).
Proof. apply levels_to_dict_positive_from, map_Forall_empty. Qed.

Lemma last_change_nonzero changes p q :
  last_change changes p = Some (Some q) → q ≠ 0%Qc ∧ (p, q) ∈ changes.
Proof.
  induction changes as [|[p' q'] changes IH]; [done|].
  cbn. destruct (last_change changes p) as [r|].
  - intros [= ->]. destruct IH as [? ?]; [done|]. split; [done|]. by right.
  - destruct (decide (p' = p)) as [->|]; [|done].
    destruct (decide (q' = 0%Qc)); [done|]. intros [= ->]. split; [done|]. by left.
Qed.

(** C4. For every book side and every diff entry [(price, qty)], the step
    [_update_level] that [apply_diff] runs for that entry behaves as
    follows: with quantity 0 the price is gone afterwards, and when the
    price was absent the side is left exactly as it was (no error: the
    step is total); with a quantity greater than 0 the price maps to that
    very quantity afterwards whatever it mapped to before (set, not add);
    in both cases every other price keeps its entry.  [apply_diff] applies
    each bid change to the bid side and each ask change to the ask side by
    this step, in the order of the event. *)
Theorem C4_update_level_set_or_remove
    (book_side : gmap Decimal Decimal) (price qty : Decimal) :
  _update_level book_side price 0%Qc !! price = None
  ∧ (book_side !! price = None → _update_level book_side price 0%Qc = book_side)
  ∧ ((0 < qty)%Qc → _update_level book_side price qty !! price = Some qty)
  ∧ (∀ other, other ≠ price →
       _update_level book_side price qty !! other = book_side !! other)
  ∧ (∀ self diff pre post,
       b diff = pre ++ (price, qty) :: post →
       bids (apply_diff self diff)
       = update_levels (_update_level (update_levels (bids self) pre) price qty) post)
  ∧ (∀ self diff pre post,
       a diff = pre ++ (price, qty) :: post →
       asks (apply_diff self diff)
       = update_levels (_update_level (update_levels (asks self) pre) price qty) post).
Proof.
  repeat split.
  - rewrite update_level_lookup. by rewrite !decide_True.
  - intros Habs. unfold _update_level. rewrite decide_True by done.
    by apply delete_id.
  - intros Hpos. rewrite update_level_lookup, decide_True by done.
    rewrite decide_False; [done|]. intros ->. by apply Qclt_not_eq in Hpos.
  - intros other Hne. rewrite update_level_lookup. by rewrite decide_False.
  - intros self diff pre post Hb. cbn. by rewrite Hb, update_levels_app.
  - intros self diff pre post Ha. cbn. by rewrite Ha, update_levels_app.
Qed.

(** C5. Stored quantities are strictly positive: the empty book and every
    book produced by [load_snapshot] store strictly positive quantities
    only; a quantity that [apply_diff] leaves at a price is either the one
    the book already had there or a non-zero quantity of the event, so 0
    is never stored; and [apply_diff] preserves the invariant for events
    whose quantities are non-negative, as the data model types them. *)
Theorem C5_stored_quantities_positive :
  positive_book new_OrderBook
  ∧ (∀ self snapshot, positive_book (load_snapshot self snapshot))
  ∧ (∀ self diff price qty,
       bids (apply_diff self diff) !! price = Some qty →
       bids self !! price = Some qty ∨ (qty ≠ 0%Qc ∧ (price, qty) ∈ b diff))
  ∧ (∀ self diff price qty,
       asks (apply_diff self diff) !! price = Some qty →
       asks self !! price = Some qty ∨ (qty ≠ 0%Qc ∧ (price, qty) ∈ a diff))
  ∧ (∀ self diff,
       positive_book self →
       nonneg_changes (b diff) → nonneg_changes (a diff) →
       positive_book (apply_diff self diff)).
Proof.
  split; [|split; [|split; [|split]]].
  - split; apply map_Forall_empty.
  - intros self snapshot. split; apply levels_to_dict_positive.
  - intros self diff price qty. cbn. rewrite update_levels_lookup.
    destruct (last_change (b diff) price) as [[q|]|] eqn:E; cbn; [|done|by left].
    intros [= ->]. right. by apply last_change_nonzero.
  - intros self diff price qty. cbn. rewrite update_levels_lookup.
    destruct (last_change (a diff) price) as [[q|]|] eqn:E; cbn; [|done|by left].
    intros [= ->]. right. by apply last_change_nonzero.
  - intros self diff [Hb Ha] Hcb Hca.
    split; cbn; by apply update_levels_positive.
Qed.

(** C6. For every book and every diff event, applying the event twice in
    a row leaves the same book as applying it once. *)
Theorem C6_apply_diff_twice (self : OrderBook) (diff : DiffEvent) :
  apply_diff (apply_diff self diff) diff = apply_diff self diff.
Proof.
  unfold apply_diff. cbn. by rewrite !update_levels_idem.
Qed.

(** Sorting the items of a side by price and keeping the first [n]. *)
Section top_of_sorted.
Context (le' : relation Decimal) `{!PartialOrder le', !Total le'}.
Context `{!RelDecision (by_price le')}.

#[local] Instance by_price_trans : Transitive (by_price le').
Proof. intros x y z. unfold by_price. apply transitivity. Qed.
#[local] Instance by_price_total : Total (by_price le').
Proof. intros x y. unfold by_price. apply total, _. Qed.

Lemma sorted_distinct_keys (l : list PriceLevel) :
  StronglySorted (by_price le') l → NoDup l.*1 →
  StronglySorted (λ x y, before le' x.1 y.1) l.
Proof.
  induction 1 as [|x l Hs IH Hall]; intros Hnd; [constructor|].
  cbn in Hnd. apply NoDup_cons in Hnd as [Hx Hnd].
  constructor; [by apply IH|].
  apply Forall_forall. intros y Hy. split.
  - by eapply Forall_forall in Hall.
  - intros Heq. apply Hx. rewrite Heq. by apply list_elem_of_fmap_2.
Qed.

Lemma take_sorted_top_of (side : gmap Decimal Decimal) (n : nat) :
  top_of (before le') side n
    (take n (merge_sort (by_price le') (map_to_list side))).
Proof.
  set (l := merge_sort (by_price le') (map_to_list side)).
  assert (Hperm : l ≡ₚ map_to_list side) by apply merge_sort_Permutation.
  assert (Hsorted : StronglySorted (λ x y, before le' x.1 y.1) l).
  { apply sorted_distinct_keys.
    - apply StronglySorted_merge_sort; apply _.
    - rewrite Hperm. apply NoDup_fst_map_to_list. }
  rewrite <- (take_drop n l) in Hsorted.
  split; [|split; [|split]].
  - by rewrite length_take, Hperm, length_map_to_list.
  - intros price qty Hin. apply elem_of_map_to_list. rewrite <- Hperm.
    by eapply subseteq_take.
  - by apply StronglySorted_app_1_l in Hsorted.
  - intros price qty Hlook Hout level Hlevel.
    apply elem_of_map_to_list in Hlook. rewrite <- Hperm in Hlook.
    rewrite <- (take_drop n l) in Hlook.
    apply elem_of_app in Hlook as [Hlook|Hlook]; [done|].
    apply (StronglySorted_app_1_elem_of _ _ _ level (price, qty) Hsorted Hlevel Hlook).
Qed.

End top_of_sorted.

Lemma top_of_weaken (better better' : relation Decimal) side n out :
  (∀ p p', better p p' → better' p p') →
  top_of better side n out → top_of better' side n out.
Proof.
  intros Himp (Hlen & Hin & Hsorted & Hout). split; [done|split; [done|split]].
  - clear Hlen Hin Hout.
    induction Hsorted as [|x l Hs IH Hall]; constructor; [done|].
    eapply Forall_impl; [done|]. intros y. apply Himp.
  - intros price qty Hl Hn level Hlevel. by eapply Himp, Hout.
Qed.

Lemma slice_to_nat {A} (n : nat) (l : list A) : slice_to (Z.of_nat n) l = take n l.
Proof. unfold slice_to. rewrite decide_True by lia. by rewrite Nat2Z.id. Qed.

#[local] Instance flip_Qcle_po : PartialOrder (flip Qcle).
Proof.
  split; [split|].
  - intros x. apply Qcle_refl.
  - intros x y z Hxy Hyz. unfold flip in *. by eapply Qcle_trans.
  - intros x y Hxy Hyx. unfold flip in *. by apply Qcle_antisym.
Qed.

#[local] Instance flip_Qcle_total : Total (flip Qcle).
Proof. intros x y. unfold flip. destruct (total Qcle x y); auto. Qed.

Lemma top_levels_bids (self : OrderBook) (n : nat) :
  top_of (λ p p', (p' < p)%Qc) (bids self) n (top_levels self (Z.of_nat n)).1.
Proof.
  unfold top_levels. cbn [fst]. rewrite slice_to_nat.
  eapply top_of_weaken; [|apply (take_sorted_top_of (flip Qcle))].
  intros p p' [Hle Hne]. unfold flip in Hle.
  apply Qcle_lt_or_eq in Hle as [?|?]; [done|]. by subst.
Qed.

Lemma top_levels_asks (self : OrderBook) (n : nat) :
  top_of (λ p p', (p < p')%Qc) (asks self) n (top_levels self (Z.of_nat n)).2.
Proof.
  unfold top_levels. cbn [snd]. rewrite slice_to_nat.
  eapply top_of_weaken; [|apply (take_sorted_top_of Qcle)].
  intros p p' [Hle Hne]. by apply Qcle_lt_or_eq in Hle as [?|?].
Qed.

(** C7. For every book and every count [n], [top_levels n] returns for
    the bids the [n] highest-priced levels, highest first, and for the
    asks the [n] lowest-priced levels, lowest first (all levels of a side
    that has fewer than [n]).  Over the bids [{100: 1, 99: 2, 101: 0.5}],
    [top_levels 2] returns [(101, 0.5); (100, 1)] in that order, without
    the level priced 99. *)
Theorem C7_top_levels (self : OrderBook) (n : nat) :
  top_of (λ p p', (p' < p)%Qc) (bids self) n (top_levels self (Z.of_nat n)).1
  ∧ top_of (λ p p', (p < p')%Qc) (asks self) n (top_levels self (Z.of_nat n)).2
  ∧ (top_levels (mkOrderBook example_bids (asks self)) 2).1
    = [(Dec 101 0, Dec 5 (-1)); (Dec 100 0, Dec 1 0)].
Proof.
  split; [apply top_levels_bids|split; [apply top_levels_asks|]].
  unfold top_levels. cbn [fst bids]. vm_compute. reflexivity.
Qed.

Lemma C4_update_level_set_or_remove_witness :
  _update_level example_bids (Dec 99 0) 0%Qc !! Dec 99 0 = None
  ∧ _update_level example_bids (Dec 98 0) 0%Qc = example_bids
  ∧ _update_level example_bids (Dec 99 0) (Dec 3 0) !! Dec 99 0 = Some (Dec 3 0)
  ∧ _update_level example_bids (Dec 99 0) (Dec 3 0) !! Dec 100 0
    = example_bids !! Dec 100 0.
Proof.
  destruct (C4_update_level_set_or_remove example_bids (Dec 99 0) (Dec 3 0))
    as (Hgone & _ & Hset & Hother & _).
  destruct (C4_update_level_set_or_remove example_bids (Dec 98 0) (Dec 3 0))
    as (_ & Habsent & _).
  split; [exact Hgone|].
  split; [apply Habsent; vm_compute; reflexivity|].
  split; [apply Hset; reflexivity|].
  apply Hother. apply (bool_decide_unpack _). vm_compute. exact I.
Defined.

Lemma C5_stored_quantities_positive_witness :
  positive_book (load_snapshot new_OrderBook snapshot_150)
  ∧ nonneg_changes (b diff_151_155)
  ∧ nonneg_changes (a diff_151_155)
  ∧ positive_book (apply_diff (load_snapshot new_OrderBook snapshot_150) diff_151_155).
Proof.
  destruct C5_stored_quantities_positive as (_ & Hsnap & _ & _ & Hdiff).
  assert (Hb : nonneg_changes (b diff_151_155)).
  { repeat constructor; intros H; discriminate H. }
  assert (Ha : nonneg_changes (a diff_151_155)).
  { repeat constructor; intros H; discriminate H. }
  split; [apply Hsnap|]. split; [exact Hb|]. split; [exact Ha|].
  apply Hdiff; [apply Hsnap|exact Hb|exact Ha].
Defined.

End BookProps.

(** * Properties of the replay engine *)

Module ReplayProps.
Import Reconstruct.

Lemma upto_diffs_prefix lines : ∀ k, upto_diffs k lines `prefix_of` lines.
Proof.
  induction lines as [|line rest IH]; intros [|k]; cbn;
    try apply prefix_nil.
  apply prefix_cons, IH.
Qed.

Lemma count_upto_diffs lines : ∀ k,
  count_diffs (upto_diffs k lines) = k `min` count_diffs lines.
Proof.
  induction lines as [|line rest IH]; intros [|k]; cbn; try done.
  rewrite IH. destruct (is_diff line); cbn; [done|].
  destruct (count_diffs rest); lia.
Qed.

Lemma upto_diffs_ends_with_diff lines : ∀ k,
  (0 < k)%nat → (k ≤ count_diffs lines)%nat →
  ∃ before data, upto_diffs k lines = before ++ [Json (EntryDiff data)].
Proof.
  induction lines as [|line rest IH]; intros [|k] Hk Hle; cbn in *; try lia.
  destruct (is_diff line) eqn:Hd.
  - destruct k as [|k].
    + destruct line as [|[| |]|]; try done.
      exists [], data. by destruct rest.
    + destruct (IH (S k)) as (before & data & ->); [lia..|].
      by exists (line :: before), data.
  - destruct (IH (S k)) as (before & data & ->); [lia..|].
    by exists (line :: before), data.
Qed.

(** With a positive cap the loop does what the uncapped loop does on the
    part of the log that ends with the diff record reaching the cap. *)
Lemma replay_loop_capped lines : ∀ order_book events_applied event_limit,
  (0 ≤ events_applied < event_limit)%Z →
  replay_loop event_limit lines order_book events_applied
  = replay_loop 0 (upto_diffs (Z.to_nat (event_limit - events_applied)) lines)
      order_book events_applied.
Proof.
  induction lines as [|line rest IH]; intros ob n cap Hn.
  { by destruct (Z.to_nat (cap - n)). }
  destruct (Z.to_nat (cap - n)) as [|k] eqn:Hk; [lia|].
  destruct line as [|[data|data|]|]; cbn [upto_diffs is_diff replay_loop].
  - rewrite <- Hk. by apply IH.
  - rewrite <- Hk. by apply IH.
  - rewrite Z.eqb_refl. cbn [negb andb].
    destruct (Z.eqb_spec cap 0) as [|_]; [lia|]. cbn [negb andb].
    rewrite Z.geb_leb. destruct (Z.leb_spec cap (n + 1)).
    + replace k with O by lia. by destruct rest.
    + replace k with (Z.to_nat (cap - (n + 1))) by lia. apply IH. lia.
  - rewrite <- Hk. by apply IH.
  - done.
Qed.

(** Without a cap, a log free of malformed lines is replayed to its end. *)
Lemma replay_loop_uncapped lines : ∀ order_book events_applied,
  Malformed ∉ lines →
  replay_loop 0 lines order_book events_applied
  = inr (book_after lines order_book,
         (events_applied + Z.of_nat (count_diffs lines))%Z).
Proof.
  induction lines as [|line rest IH]; intros ob n Hwf; cbn.
  { do 2 f_equal. lia. }
  apply not_elem_of_cons in Hwf as [Hline Hwf].
  destruct line as [|[data|data|]|]; cbn; try done; rewrite IH by done;
    do 2 f_equal; lia.
Qed.

(** C8. For every log and every positive cap on the number of diffs, the
    replay loop does exactly what an uncapped replay does on the part of
    the log that ends with the diff record reaching the cap (the whole log
    when it has fewer diffs): that part is a prefix of the log, holds at
    most [cap] diff records and, when the cap is reached, ends with a diff
    record, so nothing after it is read; when that part has no malformed
    line the loop returns the book as of that point together with the
    number of diffs applied, which is at most the cap.  With cap 1 over
    the log [snapshot; diff1; diff2] exactly [diff1] is applied on top of
    the snapshot. *)
Theorem C8_replay_honours_cap (log : list Line) (depth event_limit : Z)
    (Hcap : (0 < event_limit)%Z) :
  let seen := upto_diffs (Z.to_nat event_limit) log in
  seen `prefix_of` log
  ∧ count_diffs seen = Z.to_nat event_limit `min` count_diffs log
  ∧ (Z.of_nat (count_diffs seen) ≤ event_limit)%Z
  ∧ ((Z.to_nat event_limit ≤ count_diffs log)%nat →
       ∃ before data, seen = before ++ [Json (EntryDiff data)])
  ∧ replay_loop event_limit log new_OrderBook 0 = replay_loop 0 seen new_OrderBook 0
  ∧ replay_diffs log depth event_limit = replay_diffs seen depth 0
  ∧ (Malformed ∉ seen →
       replay_loop event_limit log new_OrderBook 0
       = inr (book_after seen new_OrderBook, Z.of_nat (count_diffs seen)))
  ∧ (∀ snapshot diff1 diff2,
       replay_loop 1 [Json (EntrySnapshot snapshot); Json (EntryDiff diff1);
                      Json (EntryDiff diff2)] new_OrderBook 0
       = inr (apply_diff (load_snapshot new_OrderBook snapshot) diff1, 1%Z)
       ∧ replay_diffs [Json (EntrySnapshot snapshot); Json (EntryDiff diff1);
                       Json (EntryDiff diff2)] depth 1
         = inr (apply_diff (load_snapshot new_OrderBook snapshot) diff1)).
Proof.
  intros seen.
  assert (Hloop : replay_loop event_limit log new_OrderBook 0
                  = replay_loop 0 seen new_OrderBook 0).
  { rewrite replay_loop_capped by lia. subst seen. by rewrite Z.sub_0_r. }
  assert (Hcount : count_diffs seen = Z.to_nat event_limit `min` count_diffs log)
    by apply count_upto_diffs.
  split; [apply upto_diffs_prefix|].
  split; [done|]. split; [lia|].
  split; [intros Hle; apply upto_diffs_ends_with_diff; [lia|done]|].
  split; [done|].
  split; [unfold replay_diffs; by rewrite Hloop|].
  split; [intros Hwf; by rewrite Hloop, replay_loop_uncapped|].
  done.
Qed.

Lemma replay_loop_error event_limit lines : ∀ order_book events_applied err,
  replay_loop event_limit lines order_book events_applied = inl err →
  err = JSONDecodeError.
Proof.
  induction lines as [|line rest IH]; intros ob n err; [done|].
  destruct line as [|[data|data|]|]; cbn; eauto.
  - destruct (_ && _); [done|]. eauto.
  - by intros [= <-].
Qed.

Lemma replay_loop_counts event_limit lines : ∀ order_book events_applied ob' n',
  replay_loop event_limit lines order_book events_applied = inr (ob', n') →
  (events_applied ≤ n')%Z
  ∧ (n' = events_applied → count_diffs lines = 0%nat ∧ Malformed ∉ lines).
Proof.
  induction lines as [|line rest IH]; intros ob n ob' n'.
  { intros [= <- <-]. split; [lia|]. intros _. split; [done|]. apply not_elem_of_nil. }
  destruct line as [|[data|data|]|]; cbn; try done.
  - intros H. apply IH in H as [Hle Heq]. split; [done|].
    intros E. destruct (Heq E) as [? ?]. split; [done|].
    by apply not_elem_of_cons.
  - intros H. apply IH in H as [Hle Heq]. split; [done|].
    intros E. destruct (Heq E) as [? ?]. split; [done|].
    by apply not_elem_of_cons.
  - destruct (_ && _).
    + intros [= <- <-]. split; lia.
    + intros H. apply IH in H as [Hle Heq]. split; lia.
  - intros H. apply IH in H as [Hle Heq]. split; [done|].
    intros E. destruct (Heq E) as [? ?]. split; [done|].
    by apply not_elem_of_cons.
Qed.

Lemma replay_loop_no_diffs event_limit lines : ∀ order_book events_applied,
  count_diffs lines = 0%nat → Malformed ∉ lines →
  replay_loop event_limit lines order_book events_applied
  = inr (book_after lines order_book, events_applied).
Proof.
  induction lines as [|line rest IH]; intros ob n Hcount Hwf; [done|].
  apply not_elem_of_cons in Hwf as [Hline Hwf].
  destruct line as [|[data|data|]|]; cbn in *; try done; by apply IH.
Qed.

(** C9. For every log, display depth and cap, [replay_diffs] fails with
    the empty-replay error exactly when its loop ran to the end of the
    input with zero diffs applied, that is, exactly when the log has no
    diff record (and no malformed line, which fails the replay with
    another error before the end of input is reached).  In particular a
    log made of one snapshot record fails with the empty-replay error. *)
Theorem C9_empty_replay_error (log : list Line) (depth event_limit : Z) :
  (replay_diffs log depth event_limit = inl EmptyReplayError
   ↔ ∃ order_book, replay_loop event_limit log new_OrderBook 0 = inr (order_book, 0%Z))
  ∧ (replay_diffs log depth event_limit = inl EmptyReplayError
     ↔ count_diffs log = 0%nat ∧ Malformed ∉ log)
  ∧ (∀ snapshot,
       replay_diffs [Json (EntrySnapshot snapshot)] depth event_limit
       = inl EmptyReplayError).
Proof.
  assert (Hfirst : replay_diffs log depth event_limit = inl EmptyReplayError
     ↔ ∃ order_book, replay_loop event_limit log new_OrderBook 0 = inr (order_book, 0%Z)).
  { unfold replay_diffs.
    destruct (replay_loop event_limit log new_OrderBook 0) as [err|[ob n]] eqn:E.
    - apply replay_loop_error in E as ->. split; [done|]. by intros [? ?].
    - destruct (Z.eqb_spec n 0) as [->|Hn].
      + split; [by exists ob|done].
      + split; [done|]. intros [? [= ? ?]]. done. }
  split; [done|]. split; [|done].
  rewrite Hfirst. split.
  - intros [ob E]. apply replay_loop_counts in E as [_ E]. by apply E.
  - intros [Hcount Hwf]. eexists. by apply replay_loop_no_diffs.
Qed.

Lemma C8_replay_honours_cap_witness :
  (0 < 1)%Z
  ∧ replay_loop 1 example_log new_OrderBook 0
    = inr (book_after (upto_diffs 1 example_log) new_OrderBook, 1%Z)
  ∧ upto_diffs 1 example_log
    = [Json (EntrySnapshot snapshot_150); Json (EntryDiff diff_151_155)]
  ∧ replay_diffs example_log 10 1
    = replay_diffs (upto_diffs 1 example_log) 10 0.
Proof.
  destruct (C8_replay_honours_cap example_log 10 1 eq_refl)
    as (_ & _ & _ & _ & _ & Hsame & Hbook & _).
  split; [reflexivity|].
  split; [|split; [reflexivity|exact Hsame]].
  apply Hbook. cbn. intros Hin.
  apply elem_of_cons in Hin as [Hin|Hin]; [discriminate|].
  apply elem_of_cons in Hin as [Hin|Hin]; [discriminate|].
  by apply elem_of_nil in Hin.
Defined.

End ReplayProps.

(** * Properties of the live tracker *)

Module TrackerProps.
Import Tracker.

(** The three ways [_process_diff] can go once the event is newer than the
    snapshot and the output file is open. *)
Lemma process_diff_first (self : BinanceOrderBookTracker) (e : DiffEvent) (L : Z) :
  snapshot_last_update_id self = Some L →
  last_final_update_id self = None →
  (L < u e)%Z →
  closed (output_file self) = false →
  _process_diff e self
  = if decide (U e ≤ L + 1 ∧ L + 1 ≤ u e)%Z
    then Returns () (accepted e self) else Resyncs self.
Proof.
  intros Hsnap Hfirst Hnew Hopen. run_method.
  rewrite Hsnap, Hfirst.
  destruct (Z.leb_spec (u e) L); [lia|].
  rewrite Z.geb_leb.
  destruct (Z.leb_spec (U e) (L + 1)), (Z.leb_spec (L + 1) (u e)); cbn [andb negb].
  - rewrite decide_True by done. by rewrite Hopen.
  - rewrite decide_False by lia. done.
  - rewrite decide_False by lia. done.
  - rewrite decide_False by lia. done.
Qed.

Lemma process_diff_next (self : BinanceOrderBookTracker) (e : DiffEvent) (L last : Z) :
  snapshot_last_update_id self = Some L →
  last_final_update_id self = Some last →
  (L < u e)%Z →
  closed (output_file self) = false →
  _process_diff e self
  = if decide (U e = last + 1)%Z
    then Returns () (accepted e self) else Resyncs self.
Proof.
  intros Hsnap Hlast Hnew Hopen. run_method.
  rewrite Hsnap, Hlast.
  destruct (Z.leb_spec (u e) L); [lia|].
  destruct (Z.eqb_spec (U e) (last + 1)); cbn [negb].
  - rewrite decide_True by done. by rewrite Hopen.
  - by rewrite decide_False.
Qed.

(** C1. For every diff event [e] processed while no diff has been applied
    in this sync attempt and with [u e > L], [L] the snapshot's last
    update id: when [U e <= L+1] and [u e >= L+1] the event is accepted,
    that is, the call returns with [e] appended to the log and the
    high-water mark set to [u e]; otherwise the call hands over to
    [_resync] with the tracker untouched ([e] is not persisted and the
    mark is not set).  Acceptance happens if and only if the two bounds
    hold.  (The output file is open, as it is throughout a live
    session.) *)
Theorem C1_first_event_rule
    (self : BinanceOrderBookTracker) (e : DiffEvent) (L : Z)
    (Hsnap : snapshot_last_update_id self = Some L)
    (Hfirst : last_final_update_id self = None)
    (Hnew : (L < u e)%Z)
    (Hopen : closed (output_file self) = false) :
  (_process_diff e self = Returns () (accepted e self)
   ↔ (U e ≤ L + 1 ∧ L + 1 ≤ u e)%Z)
  ∧ (¬ (U e ≤ L + 1 ∧ L + 1 ≤ u e)%Z → _process_diff e self = Resyncs self)
  ∧ written (output_file (accepted e self))
    = written (output_file self) ++ [DiffRecord e]
  ∧ last_final_update_id (accepted e self) = Some (u e).
Proof.
  rewrite (process_diff_first self e L) by done.
  destruct (decide (U e ≤ L + 1 ∧ L + 1 ≤ u e)%Z) as [Hok|Hbad].
  - split; [done|]. split; [done|]. done.
  - split; [split; [done|done]|]. split; [done|]. done.
Qed.

(** C3. For every diff event [e] processed after a diff has been applied
    in this sync attempt, with high-water mark [last], and with
    [u e > L]: the event is accepted (appended to the log, mark set to
    [u e]) if and only if [U e = last + 1]; for any other [U e], below or
    above, the call hands over to [_resync] with the tracker untouched.
    In particular with mark 100 an event with [U e = 102] triggers the
    resync and is not persisted. *)
Theorem C3_chain_rule
    (self : BinanceOrderBookTracker) (e : DiffEvent) (L last : Z)
    (Hsnap : snapshot_last_update_id self = Some L)
    (Hlast : last_final_update_id self = Some last)
    (Hnew : (L < u e)%Z)
    (Hopen : closed (output_file self) = false) :
  (_process_diff e self = Returns () (accepted e self) ↔ U e = (last + 1)%Z)
  ∧ (U e ≠ (last + 1)%Z → _process_diff e self = Resyncs self)
  ∧ (last = 100%Z → U e = 102%Z → _process_diff e self = Resyncs self)
  ∧ written (output_file (accepted e self))
    = written (output_file self) ++ [DiffRecord e]
  ∧ last_final_update_id (accepted e self) = Some (u e).
Proof.
  rewrite (process_diff_next self e L last) by done.
  destruct (decide (U e = last + 1)%Z) as [Hok|Hbad].
  - split; [done|]. split; [done|]. split; [lia|]. done.
  - split; [split; [done|done]|]. done.
Qed.

(** C2, what the claim states, on the code: with snapshot id 150 and no
    diff applied yet, the event 152..155 is not accepted; the call hands
    over to [_resync]. *)
Lemma C2_event_152_not_accepted :
  _process_diff diff_152_155 tracker_at_150 = Resyncs tracker_at_150
  ∧ _process_diff diff_152_155 tracker_at_150
    ≠ Returns () (accepted diff_152_155 tracker_at_150).
Proof. split; [reflexivity|discriminate]. Qed.

(** C2, as the code has it.  With snapshot id 150 and no diff applied
    yet: an event 152..155 is rejected as first event (152 > 151, so
    update 151 would be missing) and triggers the resync; an event
    151..155 is accepted as first event, and after it a second event
    newer than the snapshot is accepted if and only if it starts at 156,
    any other start triggering the resync. *)
Theorem C2_first_event_and_chain
    (self : BinanceOrderBookTracker) (e1 e2 : DiffEvent)
    (Hsnap : snapshot_last_update_id self = Some 150%Z)
    (Hfirst : last_final_update_id self = None)
    (Hopen : closed (output_file self) = false)
    (Hfinal : u e1 = 155%Z)
    (Hnew : (150 < u e2)%Z) :
  (U e1 = 152%Z → _process_diff e1 self = Resyncs self)
  ∧ (U e1 = 151%Z →
       _process_diff e1 self = Returns () (accepted e1 self)
       ∧ last_final_update_id (accepted e1 self) = Some 155%Z
       ∧ (_process_diff e2 (accepted e1 self)
            = Returns () (accepted e2 (accepted e1 self))
          ↔ U e2 = 156%Z)
       ∧ (U e2 ≠ 156%Z →
            _process_diff e2 (accepted e1 self) = Resyncs (accepted e1 self))).
Proof.
  split.
  - intros HU. rewrite (process_diff_first self e1 150) by (done || lia).
    rewrite decide_False by lia. done.
  - intros HU. rewrite (process_diff_first self e1 150) by (done || lia).
    rewrite decide_True by lia. split; [done|].
    split; [cbn; by rewrite Hfinal|].
    rewrite (process_diff_next (accepted e1 self) e2 150 155); [|done|cbn; by rewrite Hfinal|done|done].
    destruct (decide (U e2 = 155 + 1)%Z) as [Hok|Hbad].
    + split; [split; [intros _; lia|done]|]. intros ?. lia.
    + split; [split; [done|intros ?; lia]|]. done.
Qed.

(** C10, what the claim states, on the code: a tracker whose snapshot
    fetch fails is no longer running afterwards, its output file is
    closed, and the one request made is the only one. *)
Lemma C10_fetch_failure_stops_tracker :
  ∃ self',
    _get_initial_snapshot (λ _, RequestException) connected_tracker = Returns () self'
    ∧ session_alive connected_tracker = true
    ∧ session_alive self' = false
    ∧ closed (output_file self') = true
    ∧ requests_made self' = 1%nat.
Proof. eexists. repeat split. Qed.

(** C10, as the code has it.  Whenever the snapshot fetch fails with a
    transport error, [_get_initial_snapshot] catches it and calls [stop]:
    the call returns normally with [is_running] cleared, which ends the
    session loops, with the socket closed, the socket thread joined and
    the output file closed; no record is written, the snapshot id is
    left as it was, and exactly one request has been made: the fetch is
    not retried. *)
Theorem C10_fetch_failure_stops
    (rest : nat → FetchResult) (self : BinanceOrderBookTracker)
    (Hfail : rest (requests_made self) = RequestException) :
  ∃ self',
    _get_initial_snapshot rest self = Returns () self'
    ∧ session_alive self' = false
    ∧ ws self' = (λ _, ConnClosed) <$> ws self
    ∧ ws_thread self' = (λ _, Joined) <$> ws_thread self
    ∧ closed (output_file self') = true
    ∧ written (output_file self') = written (output_file self)
    ∧ snapshot_last_update_id self' = snapshot_last_update_id self
    ∧ last_final_update_id self' = last_final_update_id self
    ∧ requests_made self' = S (requests_made self).
Proof.
  run_method. cbn. rewrite Hfail.
  destruct self as [[c|] [t|] snap last buf ready running file n]; cbn;
    eexists; repeat split.
Qed.

Lemma C1_first_event_rule_witness :
  (_process_diff diff_151_155 tracker_at_150
     = Returns () (accepted diff_151_155 tracker_at_150)
   ↔ (U diff_151_155 ≤ 150 + 1 ∧ 150 + 1 ≤ u diff_151_155)%Z)
  ∧ (¬ (U diff_152_155 ≤ 150 + 1 ∧ 150 + 1 ≤ u diff_152_155)%Z →
       _process_diff diff_152_155 tracker_at_150 = Resyncs tracker_at_150).
Proof.
  split.
  - apply (C1_first_event_rule tracker_at_150 diff_151_155 150); reflexivity.
  - apply (C1_first_event_rule tracker_at_150 diff_152_155 150); reflexivity.
Defined.

Lemma C2_first_event_and_chain_witness :
  _process_diff diff_152_155 tracker_at_150 = Resyncs tracker_at_150
  ∧ _process_diff diff_151_155 tracker_at_150
    = Returns () (accepted diff_151_155 tracker_at_150)
  ∧ (_process_diff diff_156_160 (accepted diff_151_155 tracker_at_150)
       = Returns () (accepted diff_156_160 (accepted diff_151_155 tracker_at_150))
     ↔ U diff_156_160 = 156%Z).
Proof.
  split.
  - apply (C2_first_event_and_chain tracker_at_150 diff_152_155 diff_156_160);
      reflexivity.
  - destruct (C2_first_event_and_chain tracker_at_150 diff_151_155 diff_156_160
                eq_refl eq_refl eq_refl eq_refl eq_refl) as [_ H].
    destruct (H eq_refl) as (Hacc & _ & Hnext & _).
    split; [exact Hacc|exact Hnext].
Defined.

Lemma C3_chain_rule_witness :
  (_process_diff diff_156_160 (accepted diff_151_155 tracker_at_150)
     = Returns () (accepted diff_156_160 (accepted diff_151_155 tracker_at_150))
   ↔ U diff_156_160 = (155 + 1)%Z)
  ∧ _process_diff diff_102_105 tracker_marked_100 = Resyncs tracker_marked_100.
Proof.
  split.
  - apply (C3_chain_rule (accepted diff_151_155 tracker_at_150) diff_156_160 150 155);
      reflexivity.
  - destruct (C3_chain_rule tracker_marked_100 diff_102_105 90 100
                eq_refl eq_refl eq_refl eq_refl) as (_ & _ & H & _).
    exact (H eq_refl eq_refl).
Defined.

Lemma C10_fetch_failure_stops_witness :
  ∃ self',
    _get_initial_snapshot (λ _, RequestException) connected_tracker = Returns () self'
    ∧ session_alive self' = false
    ∧ ws self' = (λ _, ConnClosed) <$> ws connected_tracker
    ∧ ws_thread self' = (λ _, Joined) <$> ws_thread connected_tracker
    ∧ closed (output_file self') = true
    ∧ written (output_file self') = written (output_file connected_tracker)
    ∧ snapshot_last_update_id self' = snapshot_last_update_id connected_tracker
    ∧ last_final_update_id self' = last_final_update_id connected_tracker
    ∧ requests_made self' = S (requests_made connected_tracker).
Proof.
  apply (C10_fetch_failure_stops (λ _, RequestException) connected_tracker).
  reflexivity.
Defined.

End TrackerProps.

(** * Further properties of the order book *)

Module BookExtra.
Import Reconstruct BookVocabulary BookProps.

Lemma last_change_None changes p :
  last_change changes p = None ↔ p ∉ changes.*1.
Proof.
  induction changes as [|[p' q'] changes IH]; cbn.
  - split; [intros _; apply not_elem_of_nil|done].
  - rewrite not_elem_of_cons, <- IH.
    destruct (last_change changes p) as [r|].
    + split; [done|]. by intros [_ ?].
    + destruct (decide (p' = p)) as [->|Hne].
      * split; [done|]. by intros [? _].
      * split; [intros _; split; [congruence|done]|done].
Qed.

Lemma last_change_app pre post p :
  last_change (pre ++ post) p
  = match last_change post p with
    | Some r => Some r
    | None => last_change pre p
    end.
Proof.
  induction pre as [|[p' q'] pre IH]; cbn.
  - by destruct (last_change post p).
  - rewrite IH. by destruct (last_change post p).
Qed.

Lemma last_change_split pre p q post :
  p ∉ post.*1 →
  last_change (pre ++ (p, q) :: post) p = Some (entry_of q).
Proof.
  intros Hpost. apply last_change_None in Hpost.
  rewrite last_change_app. cbn. rewrite Hpost.
  by rewrite decide_True.
Qed.

Lemma last_change_elem changes p r :
  last_change changes p = Some r → ∃ q, (p, q) ∈ changes ∧ r = entry_of q.
Proof.
  induction changes as [|[p' q'] changes IH]; [done|]. cbn.
  destruct (last_change changes p) as [r'|].
  - intros [= ->]. destruct IH as (q & ? & ?); [done|].
    exists q. split; [by right|done].
  - destruct (decide (p' = p)) as [->|]; [|done].
    intros [= <-]. exists q'. split; [by left|done].
Qed.

Lemma distinct_prices_unique (l : list PriceLevel) p q q' :
  NoDup l.*1 → (p, q) ∈ l → (p, q') ∈ l → q = q'.
Proof.
  induction l as [|[p0 q0] l IH]; cbn; [by intros _ ?%elem_of_nil|].
  intros [Hp0 Hnd]%NoDup_cons Hq Hq'.
  apply elem_of_cons in Hq as [Hq|Hq];
    apply elem_of_cons in Hq' as [Hq'|Hq']; simplify_eq.
  - done.
  - destruct Hp0. by apply (list_elem_of_fmap_2 fst _ (p0, q')).
  - destruct Hp0. by apply (list_elem_of_fmap_2 fst _ (p0, q)).
  - by apply IH.
Qed.

(** With pairwise distinct prices the entry a run of changes leaves at a
    price is read off membership alone. *)
Lemma last_change_distinct (l : list PriceLevel) p q :
  NoDup l.*1 → (p, q) ∈ l → last_change l p = Some (entry_of q).
Proof.
  intros Hnd Hin.
  destruct (last_change l p) as [r|] eqn:E.
  - apply last_change_elem in E as (q' & Hin' & ->).
    by rewrite (distinct_prices_unique l p q q').
  - apply last_change_None in E. destruct E.
    by apply (list_elem_of_fmap_2 fst _ (p, q)).
Qed.

Lemma last_change_perm (l l' : list PriceLevel) p :
  NoDup l.*1 → l ≡ₚ l' → last_change l p = last_change l' p.
Proof.
  intros Hnd Hperm.
  assert (Hnd' : NoDup l'.*1) by by rewrite <- Hperm.
  destruct (last_change l p) as [r|] eqn:E.
  - apply last_change_elem in E as (q & Hin & ->).
    symmetry. apply last_change_distinct; [done|]. by rewrite <- Hperm.
  - symmetry. apply last_change_None. rewrite <- Hperm.
    by apply last_change_None.
Qed.

Lemma update_levels_perm m (l l' : list PriceLevel) :
  NoDup l.*1 → l ≡ₚ l' → update_levels m l = update_levels m l'.
Proof.
  intros Hnd Hperm. apply map_eq. intros p.
  rewrite !update_levels_lookup. by rewrite (last_change_perm l l').
Qed.

(** X1. Within one event the last change that names a price decides its
    entry: for every book, event and price, if the bid changes end with a
    change [(price, qty)] that no later bid change overrides, the bid side
    afterwards has no entry at the price when [qty] is 0 and [qty]
    otherwise; a price that no bid change names keeps its entry.  The same
    holds for the ask changes and the ask side. *)
Theorem X1_last_change_wins (self : OrderBook) (diff : DiffEvent) (price : Decimal) :
  (∀ pre qty post,
     b diff = pre ++ (price, qty) :: post → price ∉ post.*1 →
     bids (apply_diff self diff) !! price = entry_of qty)
  ∧ (price ∉ (b diff).*1 →
     bids (apply_diff self diff) !! price = bids self !! price)
  ∧ (∀ pre qty post,
     a diff = pre ++ (price, qty) :: post → price ∉ post.*1 →
     asks (apply_diff self diff) !! price = entry_of qty)
  ∧ (price ∉ (a diff).*1 →
     asks (apply_diff self diff) !! price = asks self !! price).
Proof.
  split; [|split; [|split]].
  - intros pre qty post Hb Hpost. cbn.
    by rewrite update_levels_lookup, Hb, last_change_split.
  - intros Hno. cbn. apply last_change_None in Hno.
    by rewrite update_levels_lookup, Hno.
  - intros pre qty post Ha Hpost. cbn.
    by rewrite update_levels_lookup, Ha, last_change_split.
  - intros Hno. cbn. apply last_change_None in Hno.
    by rewrite update_levels_lookup, Hno.
Qed.

(** X2. The order of the changes inside an event does not matter when
    they name pairwise distinct prices: two events whose bid changes are
    permutations of each other, and likewise their ask changes, leave the
    same book. *)
Theorem X2_distinct_prices_any_order (self : OrderBook) (diff diff' : DiffEvent)
    (Hbids : NoDup (b diff).*1) (Hasks : NoDup (a diff).*1)
    (Hb : b diff ≡ₚ b diff') (Ha : a diff ≡ₚ a diff') :
  apply_diff self diff = apply_diff self diff'.
Proof.
  unfold apply_diff.
  by rewrite (update_levels_perm _ (b diff) (b diff')),
             (update_levels_perm _ (a diff) (a diff')).
Qed.

(** Loading levels is applying, in order, the changes with a positive
    quantity. *)
Lemma levels_fold_as_updates (levels : list PriceLevel) : ∀ m,
  foldl (λ result level,
           let '(price, qty) := level in
           if decide (0 < qty)%Qc then <[price := qty]> result else result)
        m levels
  = update_levels m (filter positive_level levels).
Proof.
  induction levels as [|[p q] levels IH]; intros m; [done|]. cbn [foldl].
  destruct (decide (0 < q)%Qc) as [Hq|Hq].
  - rewrite filter_cons_True by done. rewrite update_levels_cons, IH. cbn.
    unfold _update_level. rewrite decide_False; [done|].
    intros ->. by apply Qclt_not_eq in Hq.
  - rewrite filter_cons_False by done. apply IH.
Qed.

Lemma levels_to_dict_as_updates (levels : list PriceLevel) :
  _levels_to_dict levels = update_levels ∅ (filter positive_level levels).
Proof. apply levels_fold_as_updates. Qed.

Lemma filter_all {A} (P : A → Prop) `{∀ x, Decision (P x)} (l : list A) :
  Forall P l → filter P l = l.
Proof.
  induction 1 as [|x l Hx Hl IH]; [done|].
  rewrite filter_cons_True by done. by rewrite IH.
Qed.

Lemma entry_of_positive (qty : Decimal) : (0 < qty)%Qc → entry_of qty = Some qty.
Proof.
  intros Hq. unfold entry_of. rewrite decide_False; [done|].
  intros ->. by apply Qclt_not_eq in Hq.
Qed.

(** Levels with distinct prices and positive quantities load into the
    map that holds exactly these levels. *)
Lemma levels_to_dict_distinct (levels : list PriceLevel) :
  NoDup levels.*1 → Forall positive_level levels →
  _levels_to_dict levels = list_to_map levels.
Proof.
  intros Hnd Hpos. apply map_eq. intros p.
  rewrite levels_to_dict_as_updates, filter_all by done.
  rewrite update_levels_lookup, lookup_empty.
  destruct (list_to_map levels !! p) as [q|] eqn:E.
  - apply elem_of_list_to_map in E; [|done].
    rewrite (last_change_distinct levels p q) by done. cbn.
    apply entry_of_positive.
    by apply (proj1 (Forall_forall _ _) Hpos (p, q)).
  - apply not_elem_of_list_to_map in E. apply last_change_None in E.
    by rewrite E.
Qed.

(** X3. Loading a snapshot is applying, to the empty book, the event made
    of the snapshot's levels with a strictly positive quantity, in the
    snapshot's order; the book that was there before plays no part. *)
Theorem X3_snapshot_as_diff_on_empty_book
    (self : OrderBook) (snapshot : Snapshot) (diff : DiffEvent)
    (Hb : b diff = filter positive_level (snap_bids snapshot))
    (Ha : a diff = filter positive_level (snap_asks snapshot)) :
  load_snapshot self snapshot = apply_diff new_OrderBook diff.
Proof.
  unfold load_snapshot, apply_diff. cbn.
  by rewrite Hb, Ha, !levels_to_dict_as_updates.
Qed.

(** X4. In a snapshot the last level of a price with a strictly positive
    quantity decides the entry of that price; levels with a quantity of 0
    or below are skipped, so unlike in a diff event they remove nothing.
    A price without any strictly positive level gets no entry. *)
Theorem X4_snapshot_last_positive_level_wins
    (levels : list PriceLevel) (price : Decimal) :
  (∀ pre qty post,
     levels = pre ++ (price, qty) :: post → (0 < qty)%Qc →
     (∀ qty', (price, qty') ∈ post → ¬ (0 < qty')%Qc) →
     _levels_to_dict levels !! price = Some qty)
  ∧ ((∀ qty, (price, qty) ∈ levels → ¬ (0 < qty)%Qc) →
     _levels_to_dict levels !! price = None).
Proof.
  split.
  - intros pre qty post -> Hq Hpost.
    rewrite levels_to_dict_as_updates, filter_app, filter_cons_True by done.
    rewrite update_levels_lookup, last_change_split.
    + cbn. by apply entry_of_positive.
    + intros (level & Hfst & Hin)%list_elem_of_fmap.
      apply list_elem_of_filter in Hin as [Hpos Hin].
      destruct level as [p' q']. cbn in Hfst. subst p'.
      by apply (Hpost q').
  - intros Hnone.
    rewrite levels_to_dict_as_updates, update_levels_lookup, lookup_empty.
    assert (E : last_change (filter positive_level levels) price = None).
    { apply last_change_None.
      intros (level & Hfst & Hin)%list_elem_of_fmap.
      apply list_elem_of_filter in Hin as [Hpos Hin].
      destruct level as [p' q']. cbn in Hfst. subst p'.
      by apply (Hnone q'). }
    by rewrite E.
Qed.

Lemma sorted_side_reloads (R : relation PriceLevel) `{!RelDecision R}
    (side : gmap Decimal Decimal) (n : nat) :
  positive_side side → size side ≤ n →
  _levels_to_dict (slice_to (Z.of_nat n) (merge_sort R (map_to_list side))) = side.
Proof.
  intros Hpos Hsize.
  assert (Hperm : merge_sort R (map_to_list side) ≡ₚ map_to_list side)
    by apply merge_sort_Permutation.
  rewrite slice_to_nat, take_ge
    by (by rewrite Hperm, length_map_to_list).
  rewrite levels_to_dict_distinct.
  - rewrite (list_to_map_proper _ (map_to_list side)).
    + apply list_to_map_to_list.
    + rewrite Hperm. apply NoDup_fst_map_to_list.
    + done.
  - rewrite Hperm. apply NoDup_fst_map_to_list.
  - rewrite Hperm. apply map_Forall_to_list in Hpos.
    eapply Forall_impl; [done|]. by intros [p q].
Qed.

(** X5. Dumping a book and loading the dump gives the book back: for a
    book that stores strictly positive quantities, a snapshot built from
    [top_levels n] with [n] at least the size of either side loads into
    that very book, whatever its id and whatever book is overwritten. *)
Theorem X5_dump_and_reload (self other : OrderBook) (n : nat) (id : Z)
    (Hpos : positive_book self)
    (Hbids : size (bids self) ≤ n) (Hasks : size (asks self) ≤ n) :
  load_snapshot other
    (mkSnapshot id (top_levels self (Z.of_nat n)).1 (top_levels self (Z.of_nat n)).2)
  = self.
Proof.
  destruct Hpos as [Hb Ha]. destruct self as [bs as_].
  unfold load_snapshot, top_levels. cbn in *.
  by rewrite !sorted_side_reloads.
Qed.

Lemma slice_to_negative {A} (k : nat) (l : list A) :
  0 < k → slice_to (- Z.of_nat k) l = take (length l - k) l.
Proof.
  intros Hk. unfold slice_to. rewrite decide_False by lia.
  by rewrite Z.opp_involutive, Nat2Z.id.
Qed.

(** X6. A negative depth drops levels from the far end: for [k > 0],
    [top_levels (-k)] returns for each side all levels but the [k] worst
    ones (none when the side has at most [k] levels), best first. *)
Theorem X6_top_levels_negative_depth (self : OrderBook) (k : nat) (Hk : 0 < k) :
  top_of (λ p p', (p' < p)%Qc) (bids self) (size (bids self) - k)
    (top_levels self (- Z.of_nat k)).1
  ∧ top_of (λ p p', (p < p')%Qc) (asks self) (size (asks self) - k)
    (top_levels self (- Z.of_nat k)).2.
Proof.
  split.
  - replace (top_levels self (- Z.of_nat k)).1
      with (top_levels self (Z.of_nat (size (bids self) - k))).1;
      [apply top_levels_bids|].
    unfold top_levels. cbn [fst].
    rewrite slice_to_nat, slice_to_negative by done.
    by rewrite (Permutation_length (merge_sort_Permutation _ _)), length_map_to_list.
  - replace (top_levels self (- Z.of_nat k)).2
      with (top_levels self (Z.of_nat (size (asks self) - k))).2;
      [apply top_levels_asks|].
    unfold top_levels. cbn [snd].
    rewrite slice_to_nat, slice_to_negative by done.
    by rewrite (Permutation_length (merge_sort_Permutation _ _)), length_map_to_list.
Qed.

Lemma top_of_one (better : relation Decimal) (side : gmap Decimal Decimal)
    (out : list PriceLevel) :
  top_of better side 1 out →
  (side = ∅ → out = [])
  ∧ (side ≠ ∅ → ∃ p q, out = [(p, q)] ∧ side !! p = Some q
       ∧ ∀ p' q', side !! p' = Some q' → p' = p ∨ better p p').
Proof.
  intros (Hlen & Hin & _ & Hout). split.
  - intros ->. rewrite map_size_empty in Hlen. by destruct out.
  - intros Hne. assert (size side ≠ 0) by by rewrite map_size_empty_iff.
    destruct (size side) as [|sz]; [done|].
    destruct out as [|[p q] [|? ?]]; cbn in Hlen; try done.
    exists p, q. split; [done|]. split; [apply Hin; by left|].
    intros p' q' Hl.
    destruct (decide ((p', q') ∈ [(p, q)])) as [Hel|Hel].
    + apply list_elem_of_singleton in Hel. left. congruence.
    + right. apply (Hout p' q' Hl Hel (p, q)). by left.
Qed.

(** X7. [top_levels 1] is the top of the book: on an empty side it
    returns nothing; on a non-empty bid side it returns the one level
    whose price is the highest of all bid prices, and on a non-empty ask
    side the one level whose price is the lowest of all ask prices. *)
Theorem X7_best_bid_and_ask (self : OrderBook) :
  (bids self = ∅ → (top_levels self 1).1 = [])
  ∧ (bids self ≠ ∅ →
     ∃ p q, (top_levels self 1).1 = [(p, q)] ∧ bids self !! p = Some q
       ∧ ∀ p' q', bids self !! p' = Some q' → (p' ≤ p)%Qc)
  ∧ (asks self = ∅ → (top_levels self 1).2 = [])
  ∧ (asks self ≠ ∅ →
     ∃ p q, (top_levels self 1).2 = [(p, q)] ∧ asks self !! p = Some q
       ∧ ∀ p' q', asks self !! p' = Some q' → (p ≤ p')%Qc).
Proof.
  destruct (top_of_one _ _ _ (top_levels_bids self 1)) as [Hb0 Hb1].
  destruct (top_of_one _ _ _ (top_levels_asks self 1)) as [Ha0 Ha1].
  split; [done|]. split; [|split; [done|]].
  - intros Hne. destruct (Hb1 Hne) as (p & q & Hout & Hl & Hmax).
    exists p, q. split; [done|]. split; [done|].
    intros p' q' Hl'. destruct (Hmax p' q' Hl') as [->|Hlt]; [done|].
    by apply Qclt_le_weak.
  - intros Hne. destruct (Ha1 Hne) as (p & q & Hout & Hl & Hmin).
    exists p, q. split; [done|]. split; [done|].
    intros p' q' Hl'. destruct (Hmin p' q' Hl') as [->|Hlt]; [done|].
    by apply Qclt_le_weak.
Qed.

(** X23. Two events applied one after the other leave the book that one
    event leaves which carries the changes of the first followed by the
    changes of the second, side by side; update ids play no part. *)
Theorem X23_two_events_merge_into_one
    (self : OrderBook) (first second merged : DiffEvent)
    (Hb : b merged = b first ++ b second)
    (Ha : a merged = a first ++ a second) :
  apply_diff (apply_diff self first) second = apply_diff self merged.
Proof.
  unfold apply_diff. cbn. by rewrite Hb, Ha, !update_levels_app.
Qed.

Lemma X23_two_events_merge_into_one_witness :
  apply_diff (apply_diff book_150 diff_151_155) diff_156_160
  = apply_diff book_150 diff_151_160.
Proof.
  apply (X23_two_events_merge_into_one book_150 diff_151_155 diff_156_160
           diff_151_160); reflexivity.
Defined.

Lemma X1_last_change_wins_witness :
  bids (apply_diff book_150 diff_151_155) !! Dec 99 0 = entry_of 0%Qc
  ∧ bids (apply_diff book_150 diff_151_155) !! Dec 100 0 = bids book_150 !! Dec 100 0.
Proof.
  destruct (X1_last_change_wins book_150 diff_151_155 (Dec 99 0)) as (Hlast & _).
  destruct (X1_last_change_wins book_150 diff_151_155 (Dec 100 0)) as (_ & Hkeep & _).
  split.
  - apply (Hlast [] 0%Qc [(Dec 102 0, Dec 3 0)]); [reflexivity|by_computation].
  - apply Hkeep. by_computation.
Defined.

Lemma X2_distinct_prices_any_order_witness :
  apply_diff book_150 diff_151_155 = apply_diff book_150 diff_151_155_swapped.
Proof.
  apply (X2_distinct_prices_any_order book_150 diff_151_155 diff_151_155_swapped).
  - by_computation.
  - by_computation.
  - apply Permutation_swap.
  - reflexivity.
Defined.

Lemma X3_snapshot_as_diff_on_empty_book_witness :
  load_snapshot book_150 snapshot_zero_level
  = apply_diff new_OrderBook diff_of_snapshot_zero_level.
Proof.
  apply (X3_snapshot_as_diff_on_empty_book book_150 snapshot_zero_level
           diff_of_snapshot_zero_level).
  - vm_compute. reflexivity.
  - vm_compute. reflexivity.
Defined.

Lemma X4_snapshot_last_positive_level_wins_witness :
  _levels_to_dict (snap_bids snapshot_zero_level) !! Dec 100 0 = Some (Dec 1 0)
  ∧ _levels_to_dict (snap_bids snapshot_zero_level) !! Dec 98 0 = None.
Proof.
  destruct (X4_snapshot_last_positive_level_wins
              (snap_bids snapshot_zero_level) (Dec 100 0)) as (Hlast & _).
  destruct (X4_snapshot_last_positive_level_wins
              (snap_bids snapshot_zero_level) (Dec 98 0)) as (_ & Hnone).
  split.
  - apply (Hlast [] (Dec 1 0) [(Dec 100 0, 0%Qc)]); [reflexivity|reflexivity|].
    intros qty' Hin Hpos. apply list_elem_of_singleton in Hin.
    injection Hin as ->. discriminate Hpos.
  - apply Hnone. intros qty Hin _.
    assert (Hno : Dec 98 0 ∉ (snap_bids snapshot_zero_level).*1) by by_computation.
    apply Hno. apply (list_elem_of_fmap_2 fst _ (Dec 98 0, qty)). exact Hin.
Defined.

Lemma X5_dump_and_reload_witness :
  load_snapshot new_OrderBook
    (mkSnapshot 7 (top_levels book_150 (Z.of_nat 2)).1 (top_levels book_150 (Z.of_nat 2)).2)
  = book_150.
Proof.
  apply (X5_dump_and_reload book_150 new_OrderBook 2 7).
  - split; apply levels_to_dict_positive.
  - by_computation.
  - by_computation.
Defined.

Lemma X6_top_levels_negative_depth_witness :
  top_of (λ p p', (p' < p)%Qc) (bids book_150) (size (bids book_150) - 1)
    (top_levels book_150 (- Z.of_nat 1)).1
  ∧ top_of (λ p p', (p < p')%Qc) (asks book_150) (size (asks book_150) - 1)
    (top_levels book_150 (- Z.of_nat 1)).2.
Proof. apply (X6_top_levels_negative_depth book_150 1). by_computation. Defined.

Lemma X7_best_bid_and_ask_witness :
  (∃ p q, (top_levels book_150 1).1 = [(p, q)] ∧ bids book_150 !! p = Some q
     ∧ ∀ p' q', bids book_150 !! p' = Some q' → (p' ≤ p)%Qc)
  ∧ (top_levels new_OrderBook 1).1 = [].
Proof.
  destruct (X7_best_bid_and_ask book_150) as (_ & Hbest & _).
  destruct (X7_best_bid_and_ask new_OrderBook) as (Hnone & _).
  split; [apply Hbest; by_computation|apply Hnone; reflexivity].
Defined.

End BookExtra.

(** * Further properties of the replay engine *)

Module ReplayExtra.
Import Reconstruct BookVocabulary BookProps ReplayProps.

Lemma malformed_in_or_out (lines : list Line) :
  Malformed ∈ lines ∨ Malformed ∉ lines.
Proof.
  induction lines as [|line rest [IH|IH]].
  - right. apply not_elem_of_nil.
  - left. by right.
  - destruct line as [|entry|]; [right|right|left; by left];
      apply not_elem_of_cons; by split.
Qed.

Lemma replay_loop_malformed lines : ∀ order_book events_applied,
  Malformed ∈ lines →
  replay_loop 0 lines order_book events_applied = inl JSONDecodeError.
Proof.
  induction lines as [|line rest IH]; intros ob n Hin.
  { by apply elem_of_nil in Hin. }
  apply elem_of_cons in Hin as [<-|Hin]; [done|].
  destruct line as [|[data|data|]|]; cbn; auto.
Qed.

Lemma book_after_app pre post order_book :
  book_after (pre ++ post) order_book = book_after post (book_after pre order_book).
Proof. unfold book_after. apply foldl_app. Qed.

Lemma replay_uncapped_book (log : list Line) (depth : Z) :
  Malformed ∉ log → (0 < count_diffs log)%nat →
  replay_diffs log depth 0 = inr (book_after log new_OrderBook).
Proof.
  intros Hwf Hcount. unfold replay_diffs.
  rewrite replay_loop_uncapped by done.
  destruct (Z.eqb_spec (0 + Z.of_nat (count_diffs log)) 0); [lia|done].
Qed.

Lemma replay_uncapped_malformed (log : list Line) (depth : Z) :
  Malformed ∈ log → replay_diffs log depth 0 = inl JSONDecodeError.
Proof. intros Hin. unfold replay_diffs. by rewrite replay_loop_malformed. Qed.

Lemma replay_uncapped_empty (log : list Line) (depth : Z) :
  Malformed ∉ log → count_diffs log = 0%nat →
  replay_diffs log depth 0 = inl EmptyReplayError.
Proof.
  intros Hwf Hcount. unfold replay_diffs.
  by rewrite replay_loop_uncapped, Hcount by done.
Qed.

(** X8. Without a cap ([event_limit = 0]) the replay reads the whole log,
    and its result is decided by the log alone: it fails with a decode
    error when some line does not parse; otherwise it fails with the
    empty-replay error when the log has no diff record, and returns the
    book obtained by applying every snapshot and diff record in file order
    when it has one. *)
Theorem X8_uncapped_replay (log : list Line) (depth : Z) :
  (Malformed ∈ log → replay_diffs log depth 0 = inl JSONDecodeError)
  ∧ (Malformed ∉ log → count_diffs log = 0%nat →
     replay_diffs log depth 0 = inl EmptyReplayError)
  ∧ (Malformed ∉ log → (0 < count_diffs log)%nat →
     replay_diffs log depth 0 = inr (book_after log new_OrderBook)).
Proof.
  split; [apply replay_uncapped_malformed|].
  split; [apply replay_uncapped_empty|apply replay_uncapped_book].
Qed.

Lemma replay_capped_as_uncapped (log : list Line) (depth event_limit : Z) :
  (0 < event_limit)%Z →
  replay_diffs log depth event_limit
  = replay_diffs (upto_diffs (Z.to_nat event_limit) log) depth 0.
Proof.
  intros Hcap. unfold replay_diffs.
  rewrite replay_loop_capped by lia. by rewrite Z.sub_0_r.
Qed.

(** X9. With a positive cap a line that does not parse fails the replay
    if and only if it lies in the part of the log that is read, that is,
    no later than the diff record that reaches the cap; a malformed line
    behind that record goes unnoticed. *)
Theorem X9_decode_error_only_in_read_part
    (log : list Line) (depth event_limit : Z) (Hcap : (0 < event_limit)%Z) :
  replay_diffs log depth event_limit = inl JSONDecodeError
  ↔ Malformed ∈ upto_diffs (Z.to_nat event_limit) log.
Proof.
  rewrite replay_capped_as_uncapped by done.
  set (seen := upto_diffs (Z.to_nat event_limit) log).
  split.
  - intros Herr. destruct (malformed_in_or_out seen) as [Hin|Hout]; [done|].
    destruct (count_diffs seen) as [|k] eqn:Hcount.
    + by rewrite replay_uncapped_empty in Herr.
    + rewrite replay_uncapped_book in Herr by (done || lia). done.
  - apply replay_uncapped_malformed.
Qed.

Lemma replay_loop_negative_limit event_limit lines : ∀ order_book events_applied,
  (event_limit < 0)%Z → (0 ≤ events_applied)%Z →
  replay_loop event_limit lines order_book events_applied
  = replay_loop 1 lines order_book events_applied.
Proof.
  induction lines as [|line rest IH]; intros ob n Hlim Hn; [done|].
  destruct line as [|[data|data|]|]; cbn; auto.
  destruct (Z.eqb_spec event_limit 0) as [|_]; [lia|]. cbn [negb andb].
  rewrite !Z.geb_leb.
  destruct (Z.leb_spec event_limit (n + 1)); [|lia].
  destruct (Z.leb_spec 1 (n + 1)); [done|lia].
Qed.

(** X10. A negative [event_limit] is not "no cap": the loop then stops
    right after the first diff record, exactly as with a cap of 1. *)
Theorem X10_negative_limit_is_cap_one
    (log : list Line) (depth event_limit : Z) (Hneg : (event_limit < 0)%Z) :
  replay_diffs log depth event_limit = replay_diffs log depth 1.
Proof.
  unfold replay_diffs. by rewrite replay_loop_negative_limit by lia.
Qed.

Lemma upto_diffs_all lines : ∀ k,
  (count_diffs lines < k)%nat → upto_diffs k lines = lines.
Proof.
  induction lines as [|line rest IH]; intros [|k] Hk; cbn in *; try done; try lia.
  f_equal. destruct (is_diff line); apply IH; lia.
Qed.

(** X11. A cap larger than the number of diff records of the log has no
    effect: the replay gives what the uncapped replay gives, failures
    included. *)
Theorem X11_cap_above_diff_count
    (log : list Line) (depth event_limit : Z)
    (Hcap : (Z.of_nat (count_diffs log) < event_limit)%Z) :
  replay_diffs log depth event_limit = replay_diffs log depth 0.
Proof.
  rewrite replay_capped_as_uncapped by lia.
  by rewrite upto_diffs_all by lia.
Qed.

Lemma replay_loop_significant event_limit lines : ∀ order_book events_applied,
  replay_loop event_limit (filter (λ line, significant line = true) lines)
    order_book events_applied
  = replay_loop event_limit lines order_book events_applied.
Proof.
  induction lines as [|line rest IH]; intros ob n; [done|].
  destruct line as [|[data|data|]|].
  - rewrite filter_cons_False by done. apply IH.
  - rewrite filter_cons_True by done. cbn. apply IH.
  - rewrite filter_cons_True by done. cbn.
    destruct (_ && _); [done|apply IH].
  - rewrite filter_cons_False by done. apply IH.
  - by rewrite filter_cons_True by done.
Qed.

(** X12. Blank lines and records whose type is neither snapshot nor diff
    are inert: removing them from a log changes nothing of what the
    replay returns or of how it fails, for every cap. *)
Theorem X12_blank_and_unknown_lines_ignored
    (log : list Line) (depth event_limit : Z) :
  replay_diffs (filter (λ line, significant line = true) log) depth event_limit
  = replay_diffs log depth event_limit.
Proof. unfold replay_diffs. by rewrite replay_loop_significant. Qed.

(** X13. Without a cap, what precedes a snapshot record does not show in
    the result: if the lines before the snapshot record all parse and at
    least one diff record follows it, the replay of the whole log returns
    (or fails as) the replay of the log cut to start at that snapshot
    record. *)
Theorem X13_replay_restarts_at_snapshot
    (pre post : list Line) (snapshot : Snapshot) (depth : Z)
    (Hpre : Malformed ∉ pre) (Hpost : (0 < count_diffs post)%nat) :
  replay_diffs (pre ++ Json (EntrySnapshot snapshot) :: post) depth 0
  = replay_diffs (Json (EntrySnapshot snapshot) :: post) depth 0.
Proof.
  destruct (malformed_in_or_out post) as [Hin|Hout].
  - rewrite !replay_uncapped_malformed; [done| |].
    + right. done.
    + apply elem_of_app. right. by right.
  - rewrite !replay_uncapped_book.
    + by rewrite book_after_app.
    + apply not_elem_of_cons. by split.
    + cbn. lia.
    + apply not_elem_of_app. split; [done|]. apply not_elem_of_cons. by split.
    + clear -Hpost. induction pre as [|line pre IH]; cbn in *; lia.
Qed.

Lemma replay_loop_positive event_limit lines :
  ∀ order_book events_applied ob' n',
  Forall nonneg_line lines → positive_book order_book →
  replay_loop event_limit lines order_book events_applied = inr (ob', n') →
  positive_book ob'.
Proof.
  induction lines as [|line rest IH]; intros ob n ob' n' Hlines Hpos.
  { by intros [= <- <-]. }
  apply Forall_cons in Hlines as [Hline Hlines].
  destruct line as [|[data|data|]|]; cbn; try done.
  - by apply IH.
  - apply IH; [done|]. split; apply levels_to_dict_positive.
  - destruct Hline as [Hb Ha]. destruct Hpos as [Hpb Hpa].
    assert (positive_book (apply_diff ob data)).
    { split; cbn; by apply update_levels_positive. }
    destruct (_ && _); [by intros [= <- <-]|by apply IH].
  - by apply IH.
Qed.

(** X14. The replay never hands out a book with a quantity that is not
    strictly positive: for a log whose diff records carry non-negative
    quantities, every book that [replay_diffs] returns, capped or not,
    stores strictly positive quantities only. *)
Theorem X14_replay_returns_positive_book
    (log : list Line) (depth event_limit : Z) (order_book : OrderBook)
    (Hlog : Forall nonneg_line log)
    (Hret : replay_diffs log depth event_limit = inr order_book) :
  positive_book order_book.
Proof.
  unfold replay_diffs in Hret.
  destruct (replay_loop event_limit log new_OrderBook 0) as [err|[ob n]] eqn:E;
    [done|].
  destruct (n =? 0)%Z; [done|]. injection Hret as <-.
  eapply replay_loop_positive; [done| |done].
  split; apply map_Forall_empty.
Qed.

Lemma example_log_parses : Malformed ∉ example_log.
Proof.
  intros Hin. unfold example_log in Hin.
  repeat (apply elem_of_cons in Hin as [Hin|Hin]; [discriminate Hin|]).
  by apply elem_of_nil in Hin.
Defined.

Lemma X8_uncapped_replay_witness :
  replay_diffs example_log 10 0 = inr (book_after example_log new_OrderBook)
  ∧ replay_diffs log_with_bad_tail 10 0 = inl JSONDecodeError
  ∧ replay_diffs [Blank] 10 0 = inl EmptyReplayError.
Proof.
  destruct (X8_uncapped_replay example_log 10) as (_ & _ & Hbook).
  destruct (X8_uncapped_replay log_with_bad_tail 10) as (Hbad & _).
  destruct (X8_uncapped_replay [Blank] 10) as (_ & Hempty & _).
  split; [|split].
  - apply Hbook; [exact example_log_parses|by_computation].
  - apply Hbad. unfold log_with_bad_tail, example_log. cbn.
    do 3 right. left.
  - apply Hempty; [|reflexivity].
    intros Hin. apply list_elem_of_singleton in Hin. discriminate Hin.
Defined.

Lemma X9_decode_error_only_in_read_part_witness :
  (replay_diffs log_with_bad_tail 10 1 = inl JSONDecodeError
   ↔ Malformed ∈ upto_diffs (Z.to_nat 1) log_with_bad_tail)
  ∧ (replay_diffs log_with_bad_tail 10 3 = inl JSONDecodeError
     ↔ Malformed ∈ upto_diffs (Z.to_nat 3) log_with_bad_tail).
Proof.
  split.
  - apply (X9_decode_error_only_in_read_part log_with_bad_tail 10 1). reflexivity.
  - apply (X9_decode_error_only_in_read_part log_with_bad_tail 10 3). reflexivity.
Defined.

Lemma X10_negative_limit_is_cap_one_witness :
  replay_diffs example_log 10 (-5) = replay_diffs example_log 10 1.
Proof. apply (X10_negative_limit_is_cap_one example_log 10 (-5)). reflexivity. Defined.

Lemma X11_cap_above_diff_count_witness :
  replay_diffs example_log 10 3 = replay_diffs example_log 10 0.
Proof. apply (X11_cap_above_diff_count example_log 10 3). reflexivity. Defined.

Lemma X13_replay_restarts_at_snapshot_witness :
  replay_diffs ([Json (EntryDiff diff_102_105)]
                ++ Json (EntrySnapshot snapshot_150) :: [Json (EntryDiff diff_151_155)])
    10 0
  = replay_diffs (Json (EntrySnapshot snapshot_150) :: [Json (EntryDiff diff_151_155)])
      10 0.
Proof.
  apply (X13_replay_restarts_at_snapshot [Json (EntryDiff diff_102_105)]
           [Json (EntryDiff diff_151_155)] snapshot_150 10).
  - intros Hin. apply list_elem_of_singleton in Hin. discriminate Hin.
  - by_computation.
Defined.

Lemma X14_replay_returns_positive_book_witness :
  positive_book (book_after example_log new_OrderBook).
Proof.
  apply (X14_replay_returns_positive_book example_log 10 0).
  - unfold example_log. repeat constructor; intros H; discriminate H.
  - vm_compute. reflexivity.
Defined.

End ReplayExtra.

(** * Further properties of the live tracker *)

Module TrackerExtra.
Import Tracker TrackerMore TrackerProps.

(** Every way [_process_diff] can go. *)
Lemma process_diff_cases (e : DiffEvent) (self : BinanceOrderBookTracker) :
  _process_diff e self
  = match snapshot_last_update_id self with
    | None => Raises TypeError self
    | Some L =>
        if decide (u e ≤ L)%Z then Returns () self
        else if decide (acceptable L (last_final_update_id self) e)
        then if closed (output_file self) then Raises ValueError self
             else Returns () (accepted e self)
        else Resyncs self
    end.
Proof.
  run_method. unfold acceptable.
  destruct (snapshot_last_update_id self) as [L|]; [|done].
  destruct (Z.leb_spec (u e) L); [by rewrite decide_True|].
  rewrite decide_False by lia.
  destruct (last_final_update_id self) as [last|].
  - destruct (Z.eqb_spec (U e) (last + 1)); cbn [negb].
    + rewrite decide_True by done. by destruct (closed (output_file self)).
    + by rewrite decide_False.
  - rewrite Z.geb_leb.
    destruct (Z.leb_spec (U e) (L + 1)), (Z.leb_spec (L + 1) (u e)); cbn [andb negb].
    + rewrite decide_True by done. by destruct (closed (output_file self)).
    + rewrite decide_False by lia. done.
    + rewrite decide_False by lia. done.
    + rewrite decide_False by lia. done.
Qed.




(** X16. Stopping twice is stopping once: [stop] returns with
    [is_running] cleared and the output file closed, leaves the records
    written, the snapshot id, the high-water mark and the buffer as they
    were, and a second [stop] returns the very same tracker (closing a
    closed file or socket is allowed). *)
Theorem X16_stop_is_idempotent (self : BinanceOrderBookTracker) :
  ∃ self',
    stop self = Returns () self'
    ∧ stop self' = Returns () self'
    ∧ is_running self' = false
    ∧ closed (output_file self') = true
    ∧ written (output_file self') = written (output_file self)
    ∧ snapshot_last_update_id self' = snapshot_last_update_id self
    ∧ last_final_update_id self' = last_final_update_id self
    ∧ diff_buffer self' = diff_buffer self.
Proof.
  destruct self as [[c|] [t|] snap last buf ready running file n];
    eexists; repeat split.
Qed.




(** X17. A successful fetch starts a gap-free log: when the REST source
    answers with a snapshot, no diff has been applied yet and the output
    file is open, [_get_initial_snapshot] makes exactly one request and
    returns with the snapshot record appended to the log and the snapshot
    id set, which leaves the tracker synced (the log ends with that
    snapshot record and no diff). *)
Theorem X17_fetched_snapshot_starts_synced_log
    (rest : nat → FetchResult) (self : BinanceOrderBookTracker)
    (snapshot : Snapshot) (now : Timestamp)
    (Hfetch : rest (requests_made self) = Fetched snapshot now)
    (Hmark : last_final_update_id self = None)
    (Hopen : closed (output_file self) = false) :
  ∃ self',
    _get_initial_snapshot rest self = Returns () self'
    ∧ written (output_file self')
      = written (output_file self) ++ [SnapshotRecord now snapshot]
    ∧ snapshot_last_update_id self' = Some (lastUpdateId snapshot)
    ∧ requests_made self' = S (requests_made self)
    ∧ is_running self' = is_running self
    ∧ synced self'.
Proof.
  run_method. cbn. rewrite Hfetch. cbn. rewrite Hopen.
  eexists. split; [done|]. cbn. repeat split.
  exists (written (output_file self)), now, snapshot, []. cbn.
  repeat split; done.
Qed.


Lemma set_diff_buffer_same (self : BinanceOrderBookTracker) :
  set_diff_buffer (diff_buffer self) self = self.
Proof. by destruct self. Qed.

(** X19. Until the snapshot is ready, frames are only buffered: delivery
    returns with the depth updates appended to the buffer in arrival
    order, every other frame dropped, and nothing else of the tracker
    changed (no record written, no mark set). *)
Theorem X19_frames_before_snapshot_are_buffered
    (messages : list Message) (self : BinanceOrderBookTracker)
    (Hwaiting : snapshot_ready self = false) :
  deliver messages self
  = Returns () (set_diff_buffer (diff_buffer self ++ depth_updates messages) self).
Proof.
  revert self Hwaiting.
  induction messages as [|message rest IH]; intros self Hwaiting.
  - cbn. by rewrite app_nil_r, set_diff_buffer_same.
  - cbn [deliver]. cbv [mbind Method_bind].
    destruct message as [data| |]; cbn.
    + cbv [mbind Method_bind get_self assign]. rewrite Hwaiting. cbn [negb].
      rewrite IH by done. cbn. by rewrite <- app_assoc.
    + apply IH. done.
    + apply IH. done.
Qed.

Lemma accepted_all_snoc (ds : list DiffEvent) (e : DiffEvent)
    (self : BinanceOrderBookTracker) :
  accepted_all (ds ++ [e]) self = accepted e (accepted_all ds self).
Proof. unfold accepted_all. by rewrite foldl_app. Qed.

Lemma accepted_all_fields (ds : list DiffEvent) : ∀ self : BinanceOrderBookTracker,
  closed (output_file self) = false →
  written (output_file (accepted_all ds self))
  = written (output_file self) ++ (DiffRecord <$> ds)
  ∧ closed (output_file (accepted_all ds self)) = false
  ∧ last_final_update_id (accepted_all ds self)
    = from_option Some (last_final_update_id self) (u <$> last ds)
  ∧ snapshot_last_update_id (accepted_all ds self) = snapshot_last_update_id self
  ∧ snapshot_ready (accepted_all ds self) = snapshot_ready self
  ∧ diff_buffer (accepted_all ds self) = diff_buffer self
  ∧ is_running (accepted_all ds self) = is_running self.
Proof.
  induction ds as [|e ds IH] using rev_ind; intros self Hopen.
  - cbn. by rewrite app_nil_r.
  - destruct (IH self Hopen) as (Hw & Hc & Hm & Hs & Hr & Hb & Hrun).
    rewrite accepted_all_snoc. cbn. rewrite Hw, fmap_app, last_snoc.
    cbn. by rewrite <- app_assoc.
Qed.

Lemma deliver_stale (L : Z) (old : list DiffEvent) (messages : list Message) :
  ∀ self : BinanceOrderBookTracker,
  snapshot_last_update_id self = Some L → snapshot_ready self = true →
  Forall (λ e, (u e ≤ L)%Z) old →
  deliver ((DepthUpdate <$> old) ++ messages) self = deliver messages self.
Proof.
  induction old as [|e old IH]; intros self HL Hready Hold; [done|].
  apply Forall_cons in Hold as [He Hold].
  cbn [fmap list_fmap app deliver]. cbv [mbind Method_bind].
  unfold _on_message at 1. cbv [mbind Method_bind get_self].
  rewrite Hready. cbn [negb].
  rewrite process_diff_cases, HL, decide_True by done.
  by apply IH.
Qed.

Lemma deliver_follows (L : Z) (events : list DiffEvent) :
  ∀ self : BinanceOrderBookTracker,
  snapshot_last_update_id self = Some L → snapshot_ready self = true →
  closed (output_file self) = false →
  follows L (last_final_update_id self) events →
  deliver (DepthUpdate <$> events) self = Returns () (accepted_all events self).
Proof.
  induction events as [|e events IH]; intros self HL Hready Hopen Hfol; [done|].
  destruct Hfol as (Hnew & Hacc & Hfol).
  cbn [fmap list_fmap deliver]. cbv [mbind Method_bind].
  unfold _on_message at 1. cbv [mbind Method_bind get_self].
  rewrite Hready. cbn [negb].
  rewrite process_diff_cases, HL, decide_False, decide_True, Hopen by (done || lia).
  by apply IH.
Qed.

Lemma chained_tail (d : DiffEvent) (ds : list DiffEvent) :
  chained (d :: ds) → chained ds.
Proof. intros Hch i d1 d2 H1 H2. by apply (Hch (S i)). Qed.

Lemma chained_follows (L : Z) (ds : list DiffEvent) : ∀ d,
  chained (d :: ds) → Forall (λ d, (L < u d)%Z) ds →
  follows L (Some (u d)) ds.
Proof.
  induction ds as [|d1 ds IH]; intros d Hch Hfresh; [done|].
  apply Forall_cons in Hfresh as [Hd1 Hfresh]. cbn.
  split; [done|]. split; [by apply (Hch 0%nat)|].
  apply IH; [by eapply chained_tail|done].
Qed.

Lemma gap_free_follows (L : Z) (ds : list DiffEvent) :
  gap_free L ds → follows L None ds.
Proof.
  intros (Hstr & Hch & Hfresh). destruct ds as [|d ds]; [done|].
  apply Forall_cons in Hfresh as [Hd Hfresh]. cbn.
  split; [done|]. split; [by apply Hstr|]. by apply chained_follows.
Qed.

(** X20. A well-formed feed is persisted in full: with a snapshot of id
    [L] loaded, no diff applied yet, the file open and the snapshot
    ready, delivering events that were all covered by the snapshot
    ([u <= L]) followed by a gap-free run of diffs (the first covers
    [L + 1], each next one starts right after the one before, all end
    beyond [L]) returns normally, never resyncs, writes exactly the
    gap-free diffs, in order, after what the log held, and leaves the
    high-water mark at the final update id of the last of them. *)
Theorem X20_gap_free_feed_is_persisted
    (self : BinanceOrderBookTracker) (L : Z) (old diffs : list DiffEvent)
    (Hsnap : snapshot_last_update_id self = Some L)
    (Hmark : last_final_update_id self = None)
    (Hopen : closed (output_file self) = false)
    (Hready : snapshot_ready self = true)
    (Hold : Forall (λ e, (u e ≤ L)%Z) old)
    (Hgap : gap_free L diffs) :
  deliver (DepthUpdate <$> (old ++ diffs)) self = Returns () (accepted_all diffs self)
  ∧ written (output_file (accepted_all diffs self))
    = written (output_file self) ++ (DiffRecord <$> diffs)
  ∧ last_final_update_id (accepted_all diffs self) = u <$> last diffs.
Proof.
  destruct (accepted_all_fields diffs self Hopen) as (Hw & _ & Hm & _).
  split; [|split; [done|]].
  - rewrite fmap_app, (deliver_stale L) by done.
    apply (deliver_follows L); try done.
    rewrite Hmark. by apply gap_free_follows.
  - rewrite Hm, Hmark. by destruct (last diffs).
Qed.

Lemma process_diff_frame_buffer (e : DiffEvent) (buffer : list DiffEvent)
    (self self' : BinanceOrderBookTracker) :
  _process_diff e self = Returns () self' →
  _process_diff e (set_diff_buffer buffer self)
  = Returns () (set_diff_buffer buffer self')
  ∧ snapshot_ready self' = snapshot_ready self.
Proof.
  rewrite !process_diff_cases. cbn.
  destruct (snapshot_last_update_id self) as [L|]; [|done].
  destruct (decide (u e ≤ L)%Z); [by intros [= <-]|].
  destruct (decide (acceptable L (last_final_update_id self) e)); [|done].
  destruct (closed (output_file self)); [done|]. by intros [= <-].
Qed.

(** X21. Buffering does not change what is persisted: if handing some
    events to the live path one after the other completes without a
    resync and without an error, then draining the same events from the
    buffer with [_process_buffer] completes too, for every fuel above
    their number and whatever [_resync] would do, and leaves the same
    tracker (same log, same mark) with the buffer empty. *)
Theorem X21_buffered_events_end_like_live_ones
    (events : list DiffEvent) (resync : Method ()) :
  ∀ (fuel : nat) (self final : BinanceOrderBookTracker),
    snapshot_ready self = true →
    deliver (DepthUpdate <$> events) self = Returns () final →
    length events < fuel →
    _process_buffer resync fuel (set_diff_buffer events self)
    = Some (Returns () (set_diff_buffer [] final)).
Proof.
  induction events as [|e events IH]; intros fuel self final Hready Hlive Hfuel.
  - destruct fuel as [|fuel]; [cbn in Hfuel; lia|].
    cbn in Hlive. injection Hlive as <-. done.
  - destruct fuel as [|fuel]; [cbn in Hfuel; lia|].
    cbn [fmap list_fmap deliver] in Hlive. cbv [mbind Method_bind] in Hlive.
    unfold _on_message at 1 in Hlive. cbv [mbind Method_bind get_self] in Hlive.
    rewrite Hready in Hlive. cbn [negb] in Hlive.
    destruct (_process_diff e self) as [[] self1|err self1|self1] eqn:He;
      [|done..].
    destruct (process_diff_frame_buffer e events self self1 He) as [Hbuf Hready1].
    cbn [_process_buffer set_diff_buffer diff_buffer].
    change (set_diff_buffer events (set_diff_buffer (e :: events) self))
      with (set_diff_buffer events self).
    unfold with_resync. rewrite Hbuf. cbn [and_then].
    apply IH; [congruence|done|cbn in Hfuel; lia].
Qed.

(** X22. A gap at the head of the buffer throws the rest of the buffer
    away: when the event at the head of the buffer is newer than the
    snapshot and fails the straddling or chaining test,
    [_process_buffer] writes nothing and runs [_resync], which calls
    [start_processes] on a tracker whose buffer is empty (the events
    queued behind the failing one are dropped unprocessed), whose mark
    and readiness are cleared and whose socket is closed, while the log
    and the old snapshot id are kept; the loop then goes on with whatever
    [start_processes] leaves. *)
Theorem X22_gap_in_buffer_discards_the_rest
    (self : BinanceOrderBookTracker) (bad : DiffEvent) (rest : list DiffEvent)
    (L : Z) (start_processes : Method ()) (fuel : nat)
    (Hbuffer : diff_buffer self = bad :: rest)
    (Hsnap : snapshot_last_update_id self = Some L)
    (Hnew : (L < u bad)%Z)
    (Hbad : ¬ acceptable L (last_final_update_id self) bad) :
  _process_buffer (_resync start_processes) (S fuel) self
  = and_then (start_processes (reset_for_resync self))
             (_process_buffer (_resync start_processes) fuel)
  ∧ diff_buffer (reset_for_resync self) = []
  ∧ last_final_update_id (reset_for_resync self) = None
  ∧ snapshot_ready (reset_for_resync self) = false
  ∧ output_file (reset_for_resync self) = output_file self
  ∧ snapshot_last_update_id (reset_for_resync self) = Some L.
Proof.
  split.
  - cbn [_process_buffer]. rewrite Hbuffer. unfold with_resync.
    rewrite process_diff_cases. cbn.
    rewrite Hsnap, decide_False, decide_False by (done || lia).
    f_equal. unfold _resync, reset_for_resync.
    cbv [mbind Method_bind get_self assign mret Method_ret]. cbn.
    by destruct (ws self).
  - unfold reset_for_resync. by destruct (ws self).
Qed.


Lemma X17_fetched_snapshot_starts_synced_log_witness :
  ∃ self',
    _get_initial_snapshot rest_150 connected_tracker = Returns () self'
    ∧ written (output_file self')
      = written (output_file connected_tracker) ++ [SnapshotRecord 0%Qc snapshot_150]
    ∧ snapshot_last_update_id self' = Some (lastUpdateId snapshot_150)
    ∧ requests_made self' = S (requests_made connected_tracker)
    ∧ is_running self' = is_running connected_tracker
    ∧ synced self'.
Proof.
  apply (X17_fetched_snapshot_starts_synced_log rest_150 connected_tracker
           snapshot_150 0%Qc); reflexivity.
Defined.



Lemma X19_frames_before_snapshot_are_buffered_witness :
  deliver example_frames connected_tracker
  = Returns ()
      (set_diff_buffer (diff_buffer connected_tracker ++ depth_updates example_frames)
         connected_tracker).
Proof.
  apply (X19_frames_before_snapshot_are_buffered example_frames connected_tracker).
  reflexivity.
Defined.

Lemma example_run_gap_free : gap_free 150 [diff_151_155; diff_156_160].
Proof.
  split; [|split].
  - intros d Hd. injection Hd as <-. split; [discriminate|discriminate].
  - intros i d d' Hi HSi. destruct i as [|[|i]].
    + injection Hi as <-. injection HSi as <-. reflexivity.
    + discriminate HSi.
    + discriminate HSi.
  - repeat constructor.
Defined.

Lemma X20_gap_free_feed_is_persisted_witness :
  deliver (DepthUpdate <$> ([diff_102_105] ++ [diff_151_155; diff_156_160]))
    tracker_at_150
  = Returns () (accepted_all [diff_151_155; diff_156_160] tracker_at_150)
  ∧ written (output_file (accepted_all [diff_151_155; diff_156_160] tracker_at_150))
    = written (output_file tracker_at_150)
      ++ (DiffRecord <$> [diff_151_155; diff_156_160])
  ∧ last_final_update_id (accepted_all [diff_151_155; diff_156_160] tracker_at_150)
    = u <$> last [diff_151_155; diff_156_160].
Proof.
  apply (X20_gap_free_feed_is_persisted tracker_at_150 150
           [diff_102_105] [diff_151_155; diff_156_160]);
    try reflexivity.
  - repeat constructor. discriminate.
  - exact example_run_gap_free.
Defined.

Lemma X21_buffered_events_end_like_live_ones_witness :
  _process_buffer call_resync 3
    (set_diff_buffer [diff_151_155; diff_156_160] tracker_at_150)
  = Some (Returns ()
            (set_diff_buffer []
               (accepted_all [diff_151_155; diff_156_160] tracker_at_150))).
Proof.
  apply (X21_buffered_events_end_like_live_ones
           [diff_151_155; diff_156_160] call_resync 3 tracker_at_150
           (accepted_all [diff_151_155; diff_156_160] tracker_at_150)).
  - reflexivity.
  - reflexivity.
  - by_computation.
Defined.

Lemma X22_gap_in_buffer_discards_the_rest_witness :
  _process_buffer (_resync returns_at_once) 2 tracker_with_gap
  = and_then (returns_at_once (reset_for_resync tracker_with_gap))
             (_process_buffer (_resync returns_at_once) 1)
  ∧ diff_buffer (reset_for_resync tracker_with_gap) = []
  ∧ last_final_update_id (reset_for_resync tracker_with_gap) = None
  ∧ snapshot_ready (reset_for_resync tracker_with_gap) = false
  ∧ output_file (reset_for_resync tracker_with_gap) = output_file tracker_with_gap
  ∧ snapshot_last_update_id (reset_for_resync tracker_with_gap) = Some 150%Z.
Proof.
  apply (X22_gap_in_buffer_discards_the_rest tracker_with_gap diff_152_155
           [diff_156_160] 150 returns_at_once 1).
  - reflexivity.
  - reflexivity.
  - reflexivity.
  - by_computation.
Defined.

End TrackerExtra.
